(** * The voice-agent demo of the Plivo stream SDK

    A model of [examples/demo/server.py]: the closure variables of
    [stream_websocket_handler] ([playing], [current_stream_id],
    [conversation_history_by_stream_id]), the handlers registered on the Plivo
    and Deepgram connections, and the helpers [get_openai_response] and
    [add_message_and_get_response].

    Every handler is a computation over the closure variables, the store of
    Python list objects the dictionary refers to, and the log of calls made on
    the collaborators (OpenAI, ElevenLabs, the Plivo handler).  A handler is
    modelled for one invocation, run to its end; what the awaited collaborators
    answer is an argument of the handler.  Logging and the pacing sleep leave
    all of this untouched and are not modelled.

    The handlers come twice.  The first part has them with every await
    answered at once and every send to the telephony leg returning.  The part
    on the handlers with the Plivo task running has them with the events the
    Plivo task handles during each await and with sends that can raise; the
    handlers of the first part are those of that part when the Plivo task
    handles nothing and the sends return
    ([undisturbed_on_deepgram_message]).

    The second part covers the configuration: [examples/demo/utils.py], the
    route of [server.py] that answers Plivo with the XML of the call, and the
    relay of the caller's audio to Deepgram. *)

From Stdlib Require Import ZArith Strings.Byte.
From stdpp Require Import gmap strings list pretty.

(** ** Python values and primitives *)

Module Py.

(** [bool(s)] of an [str | None] value: [None] and the empty string are
    false. *)
Definition truthy (s : option string) : bool :=
  match s with
  | None => false
  | Some s => negb (bool_decide (s = ""))
  end.

(** [s or d] for an [str | None] value [s]. *)
Definition or_else (s : option string) (d : string) : string :=
  match s with
  | None => d
  | Some s' => if truthy s then s' else d
  end.

(** [l[-n:]] for a positive [n]: the last [n] elements, the whole list when
    it is shorter. *)
Definition last_n {A : Type} (n : nat) (l : list A) : list A :=
  drop (length l - n) l.

(** Strings below hold code points under 256, one per character; on these
    the next functions are Python's. *)

(** [c.isspace()] for one character. *)
Definition isspace (c : Ascii.ascii) : bool :=
  let n := Ascii.N_of_ascii c in
  ((9 <=? n) && (n <=? 13) || (28 <=? n) && (n <=? 32)
   || (n =? 133) || (n =? 160))%N.

(** [c.lower()] for one character: the letters A-Z and the capital letters of
    Latin-1 (all of 192-222 but the multiplication sign) move up by 32. *)
Definition lower_char (c : Ascii.ascii) : Ascii.ascii :=
  let n := Ascii.N_of_ascii c in
  if ((65 <=? n) && (n <=? 90)
      || (192 <=? n) && (n <=? 222) && negb (n =? 215))%N
  then Ascii.ascii_of_N (n + 32)
  else c.

(** [s.lower()] *)
Fixpoint lower (s : string) : string :=
  match s with
  | EmptyString => EmptyString
  | String c rest => String (lower_char c) (lower rest)
  end.

(** [s.lstrip()] *)
Fixpoint lstrip (s : string) : string :=
  match s with
  | EmptyString => EmptyString
  | String c rest => if isspace c then lstrip rest else s
  end.

(** [s.rstrip()] *)
Fixpoint rstrip (s : string) : string :=
  match s with
  | EmptyString => EmptyString
  | String c rest =>
      match rstrip rest with
      | EmptyString => if isspace c then EmptyString else String c EmptyString
      | kept => String c kept
      end
  end.

(** [s.strip()] *)
Definition strip (s : string) : string := rstrip (lstrip s).

(** Whether every character of [s] is white space (true of the empty
    string). *)
Fixpoint blank (s : string) : bool :=
  match s with
  | EmptyString => true
  | String c rest => isspace c && blank rest
  end.

(** [sep.join(l)] *)
Fixpoint join (sep : string) (l : list string) : string :=
  match l with
  | [] => EmptyString
  | [x] => x
  | x :: rest => x +:+ sep +:+ join sep rest
  end.

(** [str(x)] for an [str | None] value, as an f-string formats it. *)
Definition str (x : option string) : string :=
  match x with
  | None => "None"
  | Some s => s
  end.

End Py.

(** ** Data *)

(** An entry of a conversation history: [{"role": ..., "content": ...}]. *)
Record message : Type := Message { role : string; content : string }.

Definition user_turn (text : string) : message := Message "user" text.
Definition assistant_turn (text : string) : message := Message "assistant" text.

(** A history is a Python list object; the dictionary and the local variable
    [history] hold references to it. *)
Abbreviation ref := nat.

(** The environment configuration read at import time. *)
Record config : Type := Config {
  OPENAI_MODEL : string;
  SYSTEM_PROMPT : string;
  ELEVENLABS_VOICE_ID : string;
  ELEVENLABS_MODEL_ID : string;
  AUDIO_CONTENT_TYPE : string;
  AUDIO_SAMPLE_RATE : Z
}.

(** Calls made on the collaborators, in the order they are made. *)
Inductive call : Type :=
| chat_completions_create (model : string) (messages : list message)
| text_to_speech_convert (text voice_id model_id output_format : string)
| send_media (media_data : list byte) (content_type : string) (sample_rate : Z)
| send_clear_audio
| send_checkpoint (name : string).

(** The asynchronous iterator returned by [text_to_speech.convert]: it yields
    chunks and then either ends or raises. *)
Inductive audio_stream : Type :=
| StopAsyncIteration
| Yield (audio_chunk : list byte) (rest : audio_stream)
| StreamRaises (e : string).

(** A Deepgram message, with the attributes the handler reads. *)
Record dg_message : Type := DgMessage {
  type : string;
  event : string;
  transcript : string
}.

(** [event.start] of a Plivo [StartEvent]. *)
Record StartEvent : Type := Start { stream_id : string; call_id : string }.

(** The closure variables of [stream_websocket_handler], the list objects and
    the calls made so far. *)
Record world : Type := World {
  playing : bool;
  current_stream_id : option string;
  conversation_history_by_stream_id : gmap string ref;
  store : list (list message);
  calls : list call
}.

Definition set_playing (b : bool) (w : world) : world :=
  World b (current_stream_id w) (conversation_history_by_stream_id w)
        (store w) (calls w).

Definition set_current_stream_id (s : option string) (w : world) : world :=
  World (playing w) s (conversation_history_by_stream_id w) (store w) (calls w).

Definition set_histories (m : gmap string ref) (w : world) : world :=
  World (playing w) (current_stream_id w) m (store w) (calls w).

Definition set_store (s : list (list message)) (w : world) : world :=
  World (playing w) (current_stream_id w) (conversation_history_by_stream_id w)
        s (calls w).

Definition set_calls (c : list call) (w : world) : world :=
  World (playing w) (current_stream_id w) (conversation_history_by_stream_id w)
        (store w) c.

(** The state of a connection when [stream_websocket_handler] starts. *)
Definition initial_world : world := World false None ∅ [] [].

(** ** Computations: state and exceptions *)

Inductive outcome (A : Type) : Type :=
| Returned (a : A)
| Raised (e : string).
Arguments Returned {A} a.
Arguments Raised {A} e.

Definition M (A : Type) : Type := world → outcome A * world.

#[global] Instance M_ret : MRet M := λ A a w, (Returned a, w).

#[global] Instance M_bind : MBind M := λ A B f m w,
  match m w with
  | (Returned a, w') => f a w'
  | (Raised e, w') => (Raised e, w')
  end.

Definition modify (f : world → world) : M unit := λ w, (Returned tt, f w).

Definition read {A : Type} (f : world → A) : M A := λ w, (Returned (f w), w).

(** What an awaited collaborator answers: a value or an exception. *)
Definition await {A : Type} (answer : outcome A) : M A := λ w, (answer, w).

Definition emit (c : call) : M unit := modify (λ w, set_calls (calls w ++ [c]) w).

Definition result {A : Type} (m : M A) (w : world) : outcome A := fst (m w).
Definition after {A : Type} (m : M A) (w : world) : world := snd (m w).

(** ** List objects *)

(** The list a reference points to.  A reference held by the program always
    points to a list; the default covers references that were never
    allocated. *)
Definition deref (r : ref) : M (list message) :=
  read (λ w, default [] (store w !! r)).

(** [l.append(x)] *)
Definition append (r : ref) (x : message) : M unit :=
  modify (λ w, set_store (alter (λ l, l ++ [x]) r (store w)) w).

(** [l[:] = new] *)
Definition assign_all (r : ref) (new : list message) : M unit :=
  modify (λ w, set_store (<[r := new]> (store w)) w).

(** [[]]: a new, empty list object. *)
Definition new_list : M ref :=
  λ w, (Returned (length (store w)), set_store (store w ++ [[]]) w).

(** [d.setdefault(key, [])] on [conversation_history_by_stream_id]: the list
    already bound to [key], or a new empty list that is bound to it. *)
Definition setdefault (key : string) : M ref :=
  d ← read conversation_history_by_stream_id;
  match d !! key with
  | Some r => mret r
  | None =>
      r ← new_list;
      modify (set_histories (<[key := r]> d));;
      mret r
  end.

(** The history the dictionary holds for [key], if any. *)
Definition history_of (w : world) (key : string) : option (list message) :=
  r ← conversation_history_by_stream_id w !! key; store w !! r.

Section Server.

Variable cfg : config.

(** ** Helper functions (server.py, lines 69-91) *)

Definition get_openai_response (answer : outcome string) (history : ref)
  : M string :=
  h ← deref history;
  emit (chat_completions_create (OPENAI_MODEL cfg)
          (Message "system" (SYSTEM_PROMPT cfg) :: h));;
  await answer.

Definition add_message_and_get_response (answer : outcome string)
    (user_message : string) (history : ref) : M string :=
  append history (user_turn user_message);;
  assistant_response ← get_openai_response answer history;
  append history (assistant_turn assistant_response);;
  h ← deref history;
  (if decide (20 < length h)
   then assign_all history (Py.last_n 20 h)
   else mret tt);;
  mret assistant_response.

(** ** Speech synthesis (server.py, lines 209-232) *)

(** The [async for] loop over the chunks of the synthesized reply. *)
Fixpoint async_for_audio_chunk (audio : audio_stream) : M unit :=
  match audio with
  | StopAsyncIteration => mret tt
  | Yield audio_chunk rest =>
      emit (send_media audio_chunk (AUDIO_CONTENT_TYPE cfg)
              (AUDIO_SAMPLE_RATE cfg));;
      async_for_audio_chunk rest
  | StreamRaises e => await (Raised e)
  end.

(** The sends to the telephony leg return here; in
    [stream_elevenlabs_audio_live] each has its own answer. *)
Definition stream_elevenlabs_audio (audio : audio_stream) (text : string)
  : M unit :=
  emit (text_to_speech_convert text (ELEVENLABS_VOICE_ID cfg)
          (ELEVENLABS_MODEL_ID cfg) "pcm_16000");;
  modify (set_playing true);;
  async_for_audio_chunk audio;;
  emit (send_checkpoint "all_audio_played").

(** ** Transcription events (server.py, lines 246-269) *)

Definition is_turn_info (message : dg_message) (ev : string) : bool :=
  bool_decide (type message = "TurnInfo") && bool_decide (event message = ev).

(** The branch for a start-of-turn message only logs; so does the start of
    the end-of-turn branch.  Every await is answered at once and the
    clear-audio command returns; [on_deepgram_message_live] has the Plivo task
    running during the awaits and sends that can raise. *)
Definition on_deepgram_message (answer : outcome string)
    (audio : audio_stream) (message : dg_message) : M unit :=
  if is_turn_info message "EndOfTurn" then
    current ← read current_stream_id;
    let stream_id := Py.or_else current "unknown" in
    history ← setdefault stream_id;
    ai_response ←
      add_message_and_get_response answer (transcript message) history;
    still_playing ← read playing;
    (if (still_playing : bool)
     then emit send_clear_audio;; modify (set_playing false)
     else mret tt);;
    stream_elevenlabs_audio audio ai_response
  else mret tt.

(** ** Telephony events (server.py, lines 286-335) *)

Definition on_start (event : StartEvent) : M unit :=
  modify (set_current_stream_id (Some (stream_id event)));;
  _ ← setdefault (stream_id event);
  mret tt.

(** The first handler registered for the disconnected event (lines 296-307);
    [del] inside [try ... except KeyError: pass] is [delete]. *)
Definition on_disconnected : M unit :=
  current ← read current_stream_id;
  d ← read conversation_history_by_stream_id;
  match current with
  | Some key =>
      if Py.truthy current && bool_decide (is_Some (d !! key))
      then modify (set_histories (delete key d))
      else mret tt
  | None => mret tt
  end.

(** The second handler registered for the disconnected event (lines
    319-322): it only logs. *)
Definition on_disconnected_log : M unit := mret tt.

(** Modelled from the spec: the dispatch of the disconnected event by the
    SDK's [PlivoFastAPIStreamingHandler], which is not part of the sources.
    The spec has the entry removed on disconnect, so the handlers registered
    for the event are run, in the order of their registration. *)
Definition disconnected : M unit :=
  on_disconnected;; on_disconnected_log.

Definition on_played_stream : M unit := modify (set_playing false).

End Server.

(** The calls of a log that send audio to the telephony leg. *)
Definition is_send_media (c : call) : bool :=
  match c with send_media _ _ _ => true | _ => false end.

Definition is_send_checkpoint (c : call) : bool :=
  match c with send_checkpoint _ => true | _ => false end.

(** The chunks an audio stream yields before it ends or raises. *)
Fixpoint chunks (audio : audio_stream) : list (list byte) :=
  match audio with
  | StopAsyncIteration => []
  | Yield c rest => c :: chunks rest
  | StreamRaises _ => []
  end.

(** The exception with which the stream stops, [None] when it yields all its
    chunks and ends. *)
Fixpoint failure (audio : audio_stream) : option string :=
  match audio with
  | StopAsyncIteration => None
  | Yield _ rest => failure rest
  | StreamRaises e => Some e
  end.

(** The exchanges of a conversation, as the entries they add to a history. *)
Definition turns_of (exchanges : list (string * string)) : list message :=
  flat_map (λ e, [user_turn e.1; assistant_turn e.2]) exchanges.

(** Successive invocations of the response pipeline on one history, each with
    its transcript and the answer of the generation collaborator; an
    invocation that raises leaves the world as it was when it raised. *)
Definition pipeline (cfg : config) (history : ref)
    (invocations : list (string * outcome string)) (w : world) : world :=
  fold_left
    (λ w i, after (add_message_and_get_response cfg i.2 i.1 history) w)
    invocations w.

(** Invocations in which the generation collaborator answers. *)
Definition answered (exchanges : list (string * string))
  : list (string * outcome string) :=
  map (λ e, (e.1, Returned e.2)) exchanges.

(** What an invocation of [stream_elevenlabs_audio] returns or raises, given
    how the stream stops. *)
Definition outcome_of (failed : option string) : outcome unit :=
  match failed with
  | None => Returned tt
  | Some e => Raised e
  end.

(** The [send_media] calls for the chunks of a stream. *)
Definition media_calls (cfg : config) (audio : audio_stream) : list call :=
  map (λ c, send_media c (AUDIO_CONTENT_TYPE cfg) (AUDIO_SAMPLE_RATE cfg))
      (chunks audio).

(** The synthesis request for a text. *)
Definition convert_call (cfg : config) (text : string) : call :=
  text_to_speech_convert text (ELEVENLABS_VOICE_ID cfg)
    (ELEVENLABS_MODEL_ID cfg) "pcm_16000".

(** The checkpoint sent when the stream ends without raising. *)
Definition checkpoint_calls (failed : option string) : list call :=
  match failed with
  | None => [send_checkpoint "all_audio_played"]
  | Some _ => []
  end.

(** ** The events of a connection *)

(** An event handled on the connection, with what the collaborators awaited
    by its handler answer. *)
Inductive event_in : Type :=
| deepgram_message (answer : outcome string) (audio : audio_stream)
    (message : dg_message)
| plivo_start (ev : StartEvent)
| plivo_played_stream
| plivo_disconnected.

Definition handle (cfg : config) (e : event_in) : M unit :=
  match e with
  | deepgram_message answer audio message =>
      on_deepgram_message cfg answer audio message
  | plivo_start ev => on_start ev
  | plivo_played_stream => on_played_stream
  | plivo_disconnected => disconnected
  end.

(** The worlds a connection can be in: the initial one and those its
    handlers lead to, whether they return or raise. *)
Inductive reachable (cfg : config) : world → Prop :=
| reachable_initial : reachable cfg initial_world
| reachable_after (w : world) (e : event_in) :
    reachable cfg w → reachable cfg (after (handle cfg e) w).

(** ** Concrete inputs *)

Definition demo_config : config :=
  Config "gpt-4o-mini" "You are a helpful assistant." "voice-1"
    "eleven_flash_v2_5" "audio/x-l16" 16000.

Definition end_of_turn (text : string) : dg_message :=
  DgMessage "TurnInfo" "EndOfTurn" text.

(** A connection on which the stream-start of stream [sid] was handled. *)
Definition started (sid : string) : world :=
  after (on_start (Start sid "call-1")) initial_world.

(** Stream ["A"] after one exchange whose reply was played in one chunk. *)
Definition after_one_reply : world :=
  after (on_deepgram_message demo_config (Returned "Hello!")
           (Yield [x01; x02] StopAsyncIteration) (end_of_turn "hi"))
        (started "A").

(** Every reference held by the dictionary points to a list object.  It holds
    of the initial world and every handler keeps it. *)
Definition well_formed (w : world) : Prop :=
  ∀ key r, conversation_history_by_stream_id w !! key = Some r →
           is_Some (store w !! r).

(** * Configuration and call set-up

    [utils.py], and in [server.py] the route that answers Plivo with the XML
    of the call (lines 134-183) and the relay of the caller's audio (lines
    276-284). *)

(** [os.environ]: the variables that are set, with their values. *)
Abbreviation environ := (gmap string string).

(** [os.getenv(name)] *)
Definition getenv (env : environ) (name : string) : option string :=
  env !! name.

(** ** utils.py *)

Definition env_flag (env : environ) (name : string) (default : bool) : bool :=
  match getenv env name with
  | None => default
  | Some value =>
      bool_decide
        (Py.lower (Py.strip value) ∈ ["1"; "true"; "t"; "yes"; "y"; "on"])
  end.

(** The levels of the [logging] module. *)
Module logging.
Definition DEBUG : Z := 10.
Definition INFO : Z := 20.
Definition WARN : Z := 30.
Definition ERROR : Z := 40.
End logging.

(** [env_var_name] is ["LOG_LEVEL"] when the caller gives none. *)
Definition get_log_level_from_env (env : environ) (env_var_name : string)
  : Z :=
  let name :=
    Py.lower (Py.strip (Py.or_else (getenv env env_var_name) "info")) in
  let mapping : gmap string Z :=
    list_to_map
      [("debug", logging.DEBUG); ("info", logging.INFO);
       ("warn", logging.WARN); ("warning", logging.WARN);
       ("error", logging.ERROR)] in
  default logging.INFO (mapping !! name).

Definition required_vars : list string :=
  ["OPENAI_API_KEY"; "OPENAI_MODEL"; "SYSTEM_PROMPT"; "DEEPGRAM_API_KEY";
   "DEEPGRAM_MODEL"; "ELEVENLABS_API_KEY"; "ELEVENLABS_VOICE_ID";
   "ELEVENLABS_MODEL_ID"; "AUDIO_SAMPLE_RATE"; "AUDIO_CONTENT_TYPE"].

(** One of the two alias blocks of [validate_and_normalize_env] (lines
    20-23): [name] takes the value of [alias] when [name] is unset or empty
    and [alias] is neither. *)
Definition adopt_alias (name alias : string) (env : environ) : environ :=
  if negb (Py.truthy (getenv env name)) && Py.truthy (getenv env alias)
  then <[name := default "" (getenv env alias)]> env
  else env.

Section Environment.

(** Python's [int] on a string: the integer, or [None] where [int] raises
    [ValueError]. *)
Variable int : string → option Z.

(** The environment after the call, and [None] returned or [RuntimeError]
    raised with its message. *)
Definition validate_and_normalize_env (env : environ)
  : outcome unit * environ :=
  let env := adopt_alias "ELEVENLABS_VOICE_ID" "ELEVEN_LABS_VOICE_ID" env in
  let env := adopt_alias "ELEVENLABS_MODEL_ID" "ELEVEN_LABS_MODEL_ID" env in
  let missing :=
    List.filter (λ var, negb (Py.truthy (getenv env var))) required_vars in
  let sample_rate_value := getenv env "AUDIO_SAMPLE_RATE" in
  let invalid :=
    match sample_rate_value with
    | Some value =>
        if Py.truthy sample_rate_value
        then match int value with
             | Some _ => []
             | None => ["AUDIO_SAMPLE_RATE (must be integer)"]
             end
        else []
    | None => []
    end in
  match missing, invalid with
  | [], [] => (Returned tt, env)
  | _, _ =>
      let messages :=
        match missing with
        | [] => []
        | _ =>
            ["Missing required environment variables: "
             +:+ Py.join ", " missing]
        end
        ++ match invalid with
           | [] => []
           | _ =>
               ["Invalid environment variables: " +:+ Py.join ", " invalid]
           end in
      (Raised (Py.join "; " messages), env)
  end.

End Environment.

(** ** The XML of the call (server.py, lines 134-183) *)

(** The elements added to the [ResponseElement], with the arguments they are
    built from; [plivoxml] turns them into text. *)
Inductive element : Type :=
| RecordElement (max_length : Z) (record_session : bool)
    (callback_url : string)
| StreamElement (bidirectional keepCallAlive : bool)
    (contentType content : string).

(** [host] is the [Host] header of the request, [None] when it has none. *)
Definition stream_xml (cfg : config) (env : environ) (host : option string)
  : list element :=
  let enable_recording := env_flag env "ENABLE_RECORDING" true in
  let record :=
    if enable_recording then
      let callback_env_raw := getenv env "RECORDING_CALLBACK_URL" in
      let mode := Py.lower (Py.strip (Py.or_else callback_env_raw "auto")) in
      let mode := if bool_decide (mode = "") then "auto" else mode in
      let callback_url :=
        if bool_decide (mode = "auto")
        then "http://" +:+ Py.str host +:+ "/recording"
        else if bool_decide (mode = "auto+https")
        then "https://" +:+ Py.str host +:+ "/recording"
        else Py.strip (Py.or_else callback_env_raw "") in
      [RecordElement 86400 true callback_url]
    else [] in
  let explicit_ws_url := default "auto" (getenv env "WEBSOCKET_URL") in
  let mode :=
    Py.lower (Py.strip (Py.or_else (Some explicit_ws_url) "auto")) in
  let mode := if bool_decide (mode = "") then "auto" else mode in
  let ws_url :=
    if bool_decide (mode = "auto")
    then "ws://" +:+ Py.str host +:+ "/stream"
    else if bool_decide (mode = "auto+wss")
    then "wss://" +:+ Py.str host +:+ "/stream"
    else explicit_ws_url in
  record
  ++ [StreamElement true true
        (AUDIO_CONTENT_TYPE cfg +:+ ";rate=" +:+ pretty (AUDIO_SAMPLE_RATE cfg))
        ws_url].

(** ** The relay of the caller's audio (server.py, lines 271-284) *)

(** The closure variable [deepgram_connection] (whether it is set), the audio
    sent to Deepgram and the number of warnings logged. *)
Record relay : Type := Relay {
  deepgram_connection : bool;
  deepgram_received : list (list byte);
  warnings : nat
}.

Definition initial_relay : relay := Relay false [] 0.

(** [deepgram_connection = connection] in [connect_and_listen_deepgram]. *)
Definition deepgram_connected (r : relay) : relay :=
  Relay true (deepgram_received r) (warnings r).

(** [raw_media] is [event.get_raw_media()]. *)
Definition on_plivo_media (raw_media : list byte) (r : relay) : relay :=
  if deepgram_connection r
  then Relay true (deepgram_received r ++ [raw_media]) (warnings r)
  else Relay false (deepgram_received r) (S (warnings r)).

Inductive relay_event : Type :=
| connected
| media (raw_media : list byte).

Definition relay_step (r : relay) (e : relay_event) : relay :=
  match e with
  | connected => deepgram_connected r
  | media raw_media => on_plivo_media raw_media r
  end.

(** The audio of the media events of a list, in order. *)
Definition frames (events : list relay_event) : list (list byte) :=
  flat_map (λ e, match e with media m => [m] | connected => [] end) events.

(** ** More on the conversation *)

(** Invocations of the response pipeline in which the generation collaborator
    raises: the transcript and the exception of each. *)
Definition failed (attempts : list (string * string))
  : list (string * outcome string) :=
  map (λ a, (a.1, Raised a.2)) attempts.

(** The roles the pipeline stores. *)
Definition is_turn (m : message) : Prop :=
  role m = "user" ∨ role m = "assistant".



(** * The handlers with the Plivo task running

    [on_deepgram_message] runs in the Deepgram task and awaits: the
    generation request, each send to the telephony leg, each chunk of the
    synthesized audio and each pacing sleep.  While it awaits, the Plivo task
    of the same connection handles the events of the call, and the awaited
    send can raise.  Here each await comes with the events the Plivo task
    handles before it is answered, and each send with its own answer.  The
    handlers of the Plivo task have no await that touches the closure
    variables and run whole; media, DTMF, cleared-audio and error events
    change nothing and are left out.  Deepgram messages are handled one after
    the other. *)

Inductive telephony_event : Type :=
| stream_start (ev : StartEvent)
| stream_played
| stream_disconnected.

Definition on_telephony_event (e : telephony_event) : M unit :=
  match e with
  | stream_start ev => on_start ev
  | stream_played => on_played_stream
  | stream_disconnected => disconnected
  end.

(** The Plivo task handling [events], in order, during one await. *)
Fixpoint meanwhile (events : list telephony_event) : M unit :=
  match events with
  | [] => mret tt
  | e :: rest => on_telephony_event e;; meanwhile rest
  end.

(** An awaited call: what the Plivo task handles before the call is
    answered, and the answer. *)
Record awaited (A : Type) : Type := Awaited {
  during : list telephony_event;
  answer : outcome A
}.
Arguments Awaited {A} during answer.
Arguments during {A} a.
Arguments answer {A} a.

Definition await_answer {A : Type} (a : awaited A) : M A :=
  meanwhile (during a);; await (answer a).

(** An await during which the Plivo task handles nothing. *)
Definition undisturbed {A : Type} (answer : outcome A) : awaited A :=
  Awaited [] answer.

(** One iteration over the synthesized audio, as it unfolds: the wait for the
    next item of the stream, then the end of the stream, or a chunk with its
    [send_media] and its sleep, or the exception of the stream. *)
Inductive playback : Type :=
| playback_end (next : list telephony_event)
| playback_chunk (next : list telephony_event) (audio_chunk : list byte)
    (send : awaited unit) (sleep : list telephony_event) (rest : playback)
| playback_error (next : list telephony_event) (e : string).

Section Live.

Variable cfg : config.

Definition get_openai_response_live (generation : awaited string)
    (history : ref) : M string :=
  h ← deref history;
  emit (chat_completions_create (OPENAI_MODEL cfg)
          (Message "system" (SYSTEM_PROMPT cfg) :: h));;
  await_answer generation.

Definition add_message_and_get_response_live (generation : awaited string)
    (user_message : string) (history : ref) : M string :=
  append history (user_turn user_message);;
  assistant_response ← get_openai_response_live generation history;
  append history (assistant_turn assistant_response);;
  h ← deref history;
  (if decide (20 < length h)
   then assign_all history (Py.last_n 20 h)
   else mret tt);;
  mret assistant_response.

Fixpoint async_for_audio_chunk_live (script : playback) : M unit :=
  match script with
  | playback_end next => meanwhile next
  | playback_chunk next audio_chunk send sleep rest =>
      meanwhile next;;
      emit (send_media audio_chunk (AUDIO_CONTENT_TYPE cfg)
              (AUDIO_SAMPLE_RATE cfg));;
      await_answer send;;
      meanwhile sleep;;
      async_for_audio_chunk_live rest
  | playback_error next e => meanwhile next;; await (Raised e)
  end.

Definition stream_elevenlabs_audio_live (script : playback)
    (checkpoint : awaited unit) (text : string) : M unit :=
  emit (text_to_speech_convert text (ELEVENLABS_VOICE_ID cfg)
          (ELEVENLABS_MODEL_ID cfg) "pcm_16000");;
  modify (set_playing true);;
  async_for_audio_chunk_live script;;
  emit (send_checkpoint "all_audio_played");;
  await_answer checkpoint.

(** The handler on an end-of-turn message up to, and without, its call of
    [stream_elevenlabs_audio] (lines 258-268); its value is the reply that is
    about to be played. *)
Definition end_of_turn_until_playback_live (generation : awaited string)
    (clear : awaited unit) (message : dg_message) : M string :=
  current ← read current_stream_id;
  let stream_id := Py.or_else current "unknown" in
  history ← setdefault stream_id;
  ai_response ←
    add_message_and_get_response_live generation (transcript message) history;
  still_playing ← read playing;
  (if (still_playing : bool)
   then emit send_clear_audio;; await_answer clear;; modify (set_playing false)
   else mret tt);;
  mret ai_response.

Definition on_deepgram_message_live (generation : awaited string)
    (clear : awaited unit) (script : playback) (checkpoint : awaited unit)
    (message : dg_message) : M unit :=
  if is_turn_info message "EndOfTurn" then
    current ← read current_stream_id;
    let stream_id := Py.or_else current "unknown" in
    history ← setdefault stream_id;
    ai_response ←
      add_message_and_get_response_live generation (transcript message)
        history;
    still_playing ← read playing;
    (if (still_playing : bool)
     then emit send_clear_audio;; await_answer clear;;
          modify (set_playing false)
     else mret tt);;
    stream_elevenlabs_audio_live script checkpoint ai_response
  else mret tt.

End Live.

(** The audio stream of the first part as a playback during which the Plivo
    task handles nothing and every [send_media] returns. *)
Fixpoint undisturbed_playback (audio : audio_stream) : playback :=
  match audio with
  | StopAsyncIteration => playback_end []
  | Yield audio_chunk rest =>
      playback_chunk [] audio_chunk (undisturbed (Returned tt)) []
        (undisturbed_playback rest)
  | StreamRaises e => playback_error [] e
  end.

Definition is_stream_played (e : telephony_event) : bool :=
  match e with stream_played => true | _ => false end.

(** How the loop over the audio stops. *)
Inductive stop : Type :=
| stream_ended
| send_raised (e : string)
| synthesis_raised (e : string).

Fixpoint stop_of (script : playback) : stop :=
  match script with
  | playback_end _ => stream_ended
  | playback_chunk _ _ send _ rest =>
      match answer send with
      | Returned _ => stop_of rest
      | Raised e => send_raised e
      end
  | playback_error _ e => synthesis_raised e
  end.

(** The chunks for which [send_media] is called: those yielded up to the
    first send that raises, or up to the end or the exception of the
    stream. *)
Fixpoint sent_chunks (script : playback) : list (list byte) :=
  match script with
  | playback_end _ => []
  | playback_chunk _ audio_chunk send _ rest =>
      audio_chunk ::
        match answer send with
        | Returned _ => sent_chunks rest
        | Raised _ => []
        end
  | playback_error _ _ => []
  end.

(** The [send_media] calls for a list of chunks. *)
Definition media_calls_of (cfg : config) (l : list (list byte)) : list call :=
  map (λ c, send_media c (AUDIO_CONTENT_TYPE cfg) (AUDIO_SAMPLE_RATE cfg)) l.

(** The calls of [stream_elevenlabs_audio] after its synthesis request. *)
Definition playback_calls (cfg : config) (script : playback) : list call :=
  media_calls_of cfg (sent_chunks script)
  ++ match stop_of script with
     | stream_ended => [send_checkpoint "all_audio_played"]
     | send_raised _ | synthesis_raised _ => []
     end.

(** What [stream_elevenlabs_audio] returns or raises. *)
Definition playback_result (script : playback) (checkpoint : awaited unit)
  : outcome unit :=
  match stop_of script with
  | stream_ended => answer checkpoint
  | send_raised e | synthesis_raised e => Raised e
  end.

(** * Properties *)

(** ** Lists *)

Lemma last_n_length {A : Type} (n : nat) (l : list A) :
  length (Py.last_n n l) = Nat.min n (length l).
Proof. unfold Py.last_n. rewrite length_drop. lia. Qed.

Lemma last_n_short {A : Type} (n : nat) (l : list A) :
  length l ≤ n → Py.last_n n l = l.
Proof.
  intros Hle. unfold Py.last_n.
  replace (length l - n) with 0 by lia. reflexivity.
Qed.

Lemma last_n_suffix {A : Type} (n : nat) (l : list A) :
  take (length l - n) l ++ Py.last_n n l = l.
Proof. apply take_drop. Qed.

Lemma last_n_app_last_n {A : Type} (n : nat) (l k : list A) :
  Py.last_n n (Py.last_n n l ++ k) = Py.last_n n (l ++ k).
Proof.
  unfold Py.last_n.
  rewrite !drop_app, drop_drop, !length_app, !length_drop.
  f_equal; f_equal; lia.
Qed.

Lemma alter_at {A : Type} (f : A → A) (l : list A) (i : nat) (x : A) :
  l !! i = Some x → alter f i l = <[i := f x]> l.
Proof.
  revert i. induction l as [|y l IH]; intros [|i] Hi; simplify_eq/=; try done.
  f_equal. by apply IH.
Qed.

(** ** Running the helpers *)

Ltac run :=
  unfold result, after, mbind, M_bind, mret, M_ret, emit, modify, read, await;
  simpl.

Lemma add_message_returned cfg (w : world) (history : ref) (h : list message)
    (user_message reply : string) :
  store w !! history = Some h →
  add_message_and_get_response cfg (Returned reply) user_message history w =
    (Returned reply,
     World (playing w) (current_stream_id w)
       (conversation_history_by_stream_id w)
       (<[history :=
            Py.last_n 20 (h ++ [user_turn user_message; assistant_turn reply])]>
          (store w))
       (calls w ++
          [chat_completions_create (OPENAI_MODEL cfg)
             (Message "system" (SYSTEM_PROMPT cfg)
                :: h ++ [user_turn user_message])])).
Proof.
  intros Hh. pose proof (lookup_lt_Some _ _ _ Hh) as Hlt.
  unfold add_message_and_get_response, get_openai_response, append, deref,
    assign_all.
  run.
  rewrite (alter_at _ _ _ _ Hh).
  rewrite list_lookup_insert_eq by done. simpl.
  rewrite (alter_at _ _ _ (h ++ [user_turn user_message])),
    list_insert_insert_eq
    by (by apply list_lookup_insert_eq).
  rewrite list_lookup_insert_eq by done. simpl.
  rewrite <- app_assoc. simpl.
  destruct (decide _) as [Hlong|Hshort]; simpl.
  - by rewrite list_insert_insert_eq.
  - rewrite last_n_short by lia. reflexivity.
Qed.

Lemma add_message_raised cfg (w : world) (history : ref) (h : list message)
    (user_message e : string) :
  store w !! history = Some h →
  add_message_and_get_response cfg (Raised e) user_message history w =
    (Raised e,
     World (playing w) (current_stream_id w)
       (conversation_history_by_stream_id w)
       (<[history := h ++ [user_turn user_message]]> (store w))
       (calls w ++
          [chat_completions_create (OPENAI_MODEL cfg)
             (Message "system" (SYSTEM_PROMPT cfg)
                :: h ++ [user_turn user_message])])).
Proof.
  intros Hh. pose proof (lookup_lt_Some _ _ _ Hh) as Hlt.
  unfold add_message_and_get_response, get_openai_response, append, deref.
  run.
  rewrite (alter_at _ _ _ _ Hh).
  rewrite list_lookup_insert_eq by done. reflexivity.
Qed.

(** ** The response pipeline on one history *)

Lemma turns_of_length (exchanges : list (string * string)) :
  length (turns_of exchanges) = 2 * length exchanges.
Proof. induction exchanges as [|e l IH]; simpl; [done | lia]. Qed.

Lemma pipeline_answered cfg (exchanges : list (string * string)) :
  ∀ (w : world) (history : ref) (h : list message),
    store w !! history = Some h →
    length h ≤ 20 →
    store (pipeline cfg history (answered exchanges) w) !! history =
      Some (Py.last_n 20 (h ++ turns_of exchanges)).
Proof.
  induction exchanges as [|[u a] l IH]; intros w history h Hh Hle; simpl.
  - rewrite app_nil_r, last_n_short by done. exact Hh.
  - unfold after. rewrite (add_message_returned _ _ _ _ _ _ Hh). simpl.
    rewrite (IH _ _ (Py.last_n 20 (h ++ [user_turn u; assistant_turn a]))).
    + rewrite last_n_app_last_n, <- app_assoc. done.
    + simpl. apply list_lookup_insert_eq. by eapply lookup_lt_Some.
    + rewrite last_n_length. lia.
Qed.

(** C1.  One completed cycle of the response pipeline (user turn appended,
    assistant turn appended, trim) leaves a history of at most 20 entries; when
    the history was longer than 20 before the trim, what remains is its last
    20 entries, in their order; a history within the bound is kept whole.  On
    a new history, 11 exchanges in a row leave the turns of the last 10. *)
Theorem history_capped_to_last_20 cfg (w : world) (history : ref)
    (h : list message) (user_message reply : string) :
  store w !! history = Some h →
  let appended := h ++ [user_turn user_message; assistant_turn reply] in
  let w' :=
    after (add_message_and_get_response cfg (Returned reply) user_message
             history) w in
  (∃ h', store w' !! history = Some h' ∧
         length h' ≤ 20 ∧
         (20 < length appended →
          length h' = 20 ∧ ∃ dropped, appended = dropped ++ h') ∧
         (length appended ≤ 20 → h' = appended)) ∧
  (h = [] →
   ∀ exchanges : list (string * string),
     length exchanges = 11 →
     store (pipeline cfg history (answered exchanges) w) !! history =
       Some (turns_of (drop 1 exchanges))).
Proof.
  intros Hh appended w'. split.
  - exists (Py.last_n 20 appended). split; [|split; [|split]].
    + subst w'. unfold after.
      rewrite (add_message_returned _ _ _ _ _ _ Hh). simpl.
      apply list_lookup_insert_eq. by eapply lookup_lt_Some.
    + rewrite last_n_length. lia.
    + intros Hlong. split.
      * rewrite last_n_length. lia.
      * exists (take (length appended - 20) appended).
        symmetry. apply last_n_suffix.
    + intros Hshort. by apply last_n_short.
  - intros -> exchanges Hlen.
    rewrite (pipeline_answered _ _ _ _ [] Hh) by (simpl; lia).
    f_equal. simpl. unfold Py.last_n. rewrite turns_of_length, Hlen.
    destruct exchanges as [|e l]; [done|]. reflexivity.
Qed.

(** C4, as the code has it.  While the generation collaborator answers, an
    even history stays even through any number of invocations of the response
    pipeline; an invocation in which it raises leaves the history with the
    user turn as one more entry, hence of odd length. *)
Theorem history_even_while_generation_answers cfg (w : world) (history : ref)
    (h : list message) :
  store w !! history = Some h →
  Nat.Even (length h) →
  (∀ exchanges : list (string * string),
     ∃ h', store (pipeline cfg history (answered exchanges) w) !! history
             = Some h' ∧
           Nat.Even (length h')) ∧
  (∀ user_message e : string,
     store (after (add_message_and_get_response cfg (Raised e) user_message
                     history) w) !! history
       = Some (h ++ [user_turn user_message]) ∧
     Nat.Odd (length (h ++ [user_turn user_message]))).
Proof.
  intros Hh [n Hn]. split.
  - intros exchanges. revert w h n Hh Hn.
    induction exchanges as [|[u a] l IH]; intros w h n Hh Hn; simpl.
    + exists h. split; [done | by exists n].
    + unfold after at 1. rewrite (add_message_returned _ _ _ _ _ _ Hh). simpl.
      eapply (IH _ _ (Nat.min 10 (n + 1))).
      * simpl. apply list_lookup_insert_eq. by eapply lookup_lt_Some.
      * rewrite last_n_length, length_app, Hn. simpl length. lia.
  - intros user_message e. split.
    + unfold after. rewrite (add_message_raised _ _ _ _ _ _ Hh). simpl.
      apply list_lookup_insert_eq. by eapply lookup_lt_Some.
    + exists n. rewrite length_app. simpl. lia.
Qed.

(** ** Speech synthesis *)

Lemma async_for_audio_chunk_run cfg (audio : audio_stream) :
  ∀ p c d s cs,
    async_for_audio_chunk cfg audio (World p c d s cs) =
      (outcome_of (failure audio),
       World p c d s (cs ++ media_calls cfg audio)).
Proof.
  induction audio as [|chunk rest IH|e]; intros p c d s cs.
  - simpl. by rewrite app_nil_r.
  - simpl. run. unfold set_calls. simpl. rewrite IH.
    unfold media_calls. simpl. by rewrite <- app_assoc.
  - simpl. unfold await, media_calls. simpl. by rewrite app_nil_r.
Qed.

Lemma stream_elevenlabs_audio_run cfg (audio : audio_stream) (text : string)
    p c d s cs :
  stream_elevenlabs_audio cfg audio text (World p c d s cs) =
    (outcome_of (failure audio),
     World true c d s
       (cs ++ convert_call cfg text :: media_calls cfg audio
           ++ checkpoint_calls (failure audio))).
Proof.
  unfold stream_elevenlabs_audio. run. unfold set_calls, set_playing. simpl.
  rewrite async_for_audio_chunk_run.
  unfold convert_call.
  destruct (failure audio) as [e|]; simpl;
    rewrite <- ?app_assoc, ?app_nil_r; reflexivity.
Qed.


(** ** Handling an end-of-turn message *)

Arguments add_message_and_get_response : simpl never.
Arguments stream_elevenlabs_audio : simpl never.
Arguments setdefault : simpl never.

Lemma setdefault_run (key : string) p c d s cs :
  setdefault key (World p c d s cs) =
    match d !! key with
    | Some r => (Returned r, World p c d s cs)
    | None =>
        (Returned (length s),
         World p c (<[key := length s]> d) (s ++ [[]]) cs)
    end.
Proof.
  unfold setdefault, new_list. run. destruct (d !! key); reflexivity.
Qed.

(** After [setdefault] the key is bound to a list object, whose content is the
    history the key had, empty when it had none. *)
Lemma setdefault_bound (key : string) (w : world) :
  well_formed w →
  ∃ r w1,
    setdefault key w = (Returned r, w1) ∧
    conversation_history_by_stream_id w1 !! key = Some r ∧
    store w1 !! r = Some (default [] (history_of w key)) ∧
    playing w1 = playing w ∧
    current_stream_id w1 = current_stream_id w ∧
    calls w1 = calls w.
Proof.
  destruct w as [p c d s cs]. intros Hwf.
  rewrite setdefault_run. unfold history_of. simpl.
  destruct (d !! key) as [r|] eqn:Hd; simpl.
  - destruct (Hwf key r Hd) as [h Hh]. simpl in Hh.
    exists r, (World p c d s cs). simpl. rewrite Hh. by repeat split.
  - exists (length s), (World p c (<[key := length s]> d) (s ++ [[]]) cs).
    simpl. rewrite lookup_insert_eq, list_lookup_middle by done.
    by repeat split.
Qed.

(** Whatever the store holds, the response pipeline makes one call, the
    generation request, and leaves the closure variables as they are. *)
Lemma add_message_calls cfg (answer : outcome string) (user_message : string)
    (history : ref) (w : world) :
  ∃ s' messages,
    add_message_and_get_response cfg answer user_message history w =
      (answer,
       World (playing w) (current_stream_id w)
         (conversation_history_by_stream_id w) s'
         (calls w ++ [chat_completions_create (OPENAI_MODEL cfg) messages])) ∧
    length s' = length (store w).
Proof.
  unfold add_message_and_get_response, get_openai_response, append, deref,
    assign_all.
  run. destruct answer as [reply|e]; simpl.
  - destruct (decide _); simpl; eexists _, _; (split; [reflexivity|]);
      simpl; by rewrite ?length_insert, !length_alter.
  - eexists _, _; split; [reflexivity|]. simpl. by rewrite length_alter.
Qed.

(** An end-of-turn message for which the generation collaborator answers. *)
Lemma on_deepgram_message_answered cfg (reply : string) (audio : audio_stream)
    (message : dg_message) (w : world) :
  well_formed w →
  is_turn_info message "EndOfTurn" = true →
  let key := Py.or_else (current_stream_id w) "unknown" in
  let h := default [] (history_of w key) in
  ∃ w',
    on_deepgram_message cfg (Returned reply) audio message w =
      (outcome_of (failure audio), w') ∧
    playing w' = true ∧
    current_stream_id w' = current_stream_id w ∧
    history_of w' key =
      Some (Py.last_n 20
              (h ++ [user_turn (transcript message); assistant_turn reply])) ∧
    calls w' =
      calls w ++
        chat_completions_create (OPENAI_MODEL cfg)
          (Message "system" (SYSTEM_PROMPT cfg)
             :: h ++ [user_turn (transcript message)])
        :: (if playing w then [send_clear_audio] else [])
        ++ convert_call cfg reply :: media_calls cfg audio
        ++ checkpoint_calls (failure audio).
Proof.
  intros Hwf Heot key h.
  destruct (setdefault_bound key w Hwf) as (r & w1 & Hset & Hd & Hs & Hp & Hc & Hcs).
  fold h in Hs.
  pose proof (add_message_returned cfg _ _ _ (transcript message) reply Hs)
    as Hadd.
  unfold on_deepgram_message. rewrite Heot.
  unfold mbind, M_bind, read. fold key. rewrite Hset, Hadd.
  rewrite Hp, Hc, Hcs.
  destruct (playing w); run; unfold set_calls, set_playing; simpl;
    rewrite stream_elevenlabs_audio_run;
    (eexists; split; [reflexivity|]); simpl;
    (split; [done|]); (split; [done|]);
    (split;
     [ unfold history_of; simpl; rewrite Hd; simpl;
       apply list_lookup_insert_eq; by eapply lookup_lt_Some
     | rewrite <- ?app_assoc; reflexivity ]).
Qed.

(** An end-of-turn message for which the generation collaborator raises. *)
Lemma on_deepgram_message_raised cfg (e : string) (audio : audio_stream)
    (message : dg_message) (w : world) :
  well_formed w →
  is_turn_info message "EndOfTurn" = true →
  let key := Py.or_else (current_stream_id w) "unknown" in
  let h := default [] (history_of w key) in
  ∃ w',
    on_deepgram_message cfg (Raised e) audio message w = (Raised e, w') ∧
    playing w' = playing w ∧
    current_stream_id w' = current_stream_id w ∧
    history_of w' key = Some (h ++ [user_turn (transcript message)]) ∧
    calls w' =
      calls w ++
        [chat_completions_create (OPENAI_MODEL cfg)
           (Message "system" (SYSTEM_PROMPT cfg)
              :: h ++ [user_turn (transcript message)])].
Proof.
  intros Hwf Heot key h.
  destruct (setdefault_bound key w Hwf) as (r & w1 & Hset & Hd & Hs & Hp & Hc & Hcs).
  fold h in Hs.
  pose proof (add_message_raised cfg _ _ _ (transcript message) e Hs) as Hadd.
  unfold on_deepgram_message. rewrite Heot.
  unfold mbind, M_bind, read. fold key. rewrite Hset, Hadd.
  rewrite Hp, Hc, Hcs.
  eexists; split; [reflexivity|]. simpl.
  repeat split. unfold history_of; simpl; rewrite Hd; simpl.
  apply list_lookup_insert_eq. by eapply lookup_lt_Some.
Qed.



(** ** Telephony events *)

Lemma on_start_run (ev : StartEvent) p c d s cs :
  on_start ev (World p c d s cs) =
    (Returned tt,
     match d !! stream_id ev with
     | Some _ => World p (Some (stream_id ev)) d s cs
     | None =>
         World p (Some (stream_id ev)) (<[stream_id ev := length s]> d)
           (s ++ [[]]) cs
     end).
Proof.
  unfold on_start. unfold mbind, M_bind, modify, set_current_stream_id.
  simpl. rewrite setdefault_run. destruct (d !! stream_id ev); reflexivity.
Qed.

Lemma disconnected_run (sid : string) p d s cs :
  sid ≠ "" →
  disconnected (World p (Some sid) d s cs) =
    (Returned tt, World p (Some sid) (delete sid d) s cs).
Proof.
  intros Hsid. unfold disconnected, on_disconnected, on_disconnected_log.
  run. rewrite bool_decide_false by done. simpl.
  case_bool_decide as Hin; simpl; [reflexivity|].
  rewrite delete_id; [reflexivity|].
  by apply eq_None_not_Some.
Qed.

(** A disconnect touches nothing but the entry of the current stream. *)
Lemma disconnected_frame (w : world) :
  ∃ d',
    disconnected w =
      (Returned tt,
       World (playing w) (current_stream_id w) d' (store w) (calls w)) ∧
    ∀ key, Some key ≠ current_stream_id w →
           d' !! key = conversation_history_by_stream_id w !! key.
Proof.
  destruct w as [p [sid|] d s cs]; simpl.
  - unfold disconnected, on_disconnected, on_disconnected_log. run.
    destruct (_ && _); simpl; eexists; (split; [reflexivity|]);
      intros key Hkey; [|done].
    apply lookup_delete_ne. congruence.
  - exists d. split; [reflexivity | done].
Qed.

(** ** The invariant *)

Lemma well_formed_initial : well_formed initial_world.
Proof. intros key r Hr. simpl in Hr. by rewrite lookup_empty in Hr. Qed.

Lemma well_formed_bound p c d s cs p' c' s' cs' (key : string) :
  well_formed (World p c d s cs) →
  length s' = S (length s) →
  well_formed (World p' c' (<[key := length s]> d) s' cs').
Proof.
  intros Hwf Hlen k r Hr. simpl in *. apply lookup_lt_is_Some.
  destruct (decide (key = k)) as [->|Hne].
  - rewrite lookup_insert_eq in Hr. simplify_eq. lia.
  - rewrite lookup_insert_ne in Hr by done.
    apply Hwf, lookup_lt_is_Some in Hr. simpl in Hr. lia.
Qed.

Lemma well_formed_kept p c d s cs p' c' s' cs' :
  well_formed (World p c d s cs) →
  length s' = length s →
  well_formed (World p' c' d s' cs').
Proof.
  intros Hwf Hlen k r Hr. simpl in *. apply lookup_lt_is_Some.
  apply Hwf, lookup_lt_is_Some in Hr. simpl in Hr. lia.
Qed.

Lemma well_formed_on_start (ev : StartEvent) (w : world) :
  well_formed w → well_formed (after (on_start ev) w).
Proof.
  destruct w as [p c d s cs]. intros Hwf. unfold after.
  rewrite on_start_run. simpl. destruct (d !! stream_id ev).
  - by eapply well_formed_kept.
  - eapply well_formed_bound; [done|]. rewrite length_app. simpl. lia.
Qed.

Lemma well_formed_disconnected (w : world) :
  well_formed w → well_formed (after disconnected w).
Proof.
  intros Hwf. destruct (disconnected_frame w) as (d' & Hrun & _).
  unfold after. rewrite Hrun. simpl.
  destruct w as [p [sid|] d s cs]; simpl in *.
  - unfold disconnected, on_disconnected, on_disconnected_log in Hrun.
    revert Hrun. run. destruct (_ && _); simpl; intros [= <-]; [|done].
    intros k r Hr. simpl in *.
    apply lookup_delete_Some in Hr as [_ Hr]. by apply (Hwf k r).
  - revert Hrun. unfold disconnected, on_disconnected, on_disconnected_log.
    run. by intros [= <-].
Qed.

Lemma well_formed_on_deepgram_message cfg (answer : outcome string)
    (audio : audio_stream) (message : dg_message) (w : world) :
  well_formed w →
  well_formed (after (on_deepgram_message cfg answer audio message) w).
Proof.
  destruct w as [p c d s cs]. intros Hwf.
  unfold after, on_deepgram_message.
  destruct (is_turn_info message "EndOfTurn"); [|done].
  unfold mbind, M_bind, read. rewrite setdefault_run.
  destruct (d !! _) as [r|];
    match goal with
    | |- context [add_message_and_get_response cfg answer ?u ?r ?w] =>
        destruct (add_message_calls cfg answer u r w) as (s' & msgs & -> & Hlen)
    end;
    simpl in Hlen;
    (destruct answer as [reply|e]; simpl;
     [ destruct p; run; unfold set_calls, set_playing; simpl;
       rewrite stream_elevenlabs_audio_run; simpl | ]).
  all: first [ by eapply well_formed_kept
             | eapply well_formed_bound; [done|];
               rewrite Hlen, length_app; simpl; lia ].
Qed.

Lemma reachable_well_formed cfg (w : world) :
  reachable cfg w → well_formed w.
Proof.
  induction 1 as [|w e _ IH]; [apply well_formed_initial|].
  destruct e as [answer audio message|ev| |]; simpl.
  - by apply well_formed_on_deepgram_message.
  - by apply well_formed_on_start.
  - destruct w. by eapply well_formed_kept.
  - by apply well_formed_disconnected.
Qed.

Lemma on_start_frame (ev : StartEvent) (w : world) (key : string) :
  well_formed w →
  key ≠ stream_id ev →
  let w' := after (on_start ev) w in
  conversation_history_by_stream_id w' !! key =
    conversation_history_by_stream_id w !! key ∧
  history_of w' key = history_of w key.
Proof.
  destruct w as [p c d s cs]. intros Hwf Hkey. unfold after.
  rewrite on_start_run. simpl. destruct (d !! stream_id ev); [done|].
  unfold history_of. simpl. rewrite lookup_insert_ne by done.
  split; [done|].
  destruct (d !! key) as [r|] eqn:Hr; simpl; [|done].
  apply lookup_app_l, lookup_lt_is_Some. exact (Hwf key r Hr).
Qed.

Lemma on_start_history (w : world) (ev : StartEvent) :
  let w' := after (on_start ev) w in
  result (on_start ev) w = Returned tt ∧
  current_stream_id w' = Some (stream_id ev) ∧
  history_of w' (stream_id ev) =
    match conversation_history_by_stream_id w !! stream_id ev with
    | Some _ => history_of w (stream_id ev)
    | None => Some []
    end.
Proof.
  destruct w as [p c d s cs]. unfold result, after.
  rewrite on_start_run. simpl. unfold history_of. simpl.
  destruct (d !! stream_id ev) as [r|] eqn:Hd; simpl.
  - by rewrite Hd.
  - rewrite lookup_insert_eq. simpl. by rewrite list_lookup_middle.
Qed.

Lemma disconnected_removes (w : world) (sid : string) :
  current_stream_id w = Some sid →
  sid ≠ "" →
  conversation_history_by_stream_id (after disconnected w) !! sid = None.
Proof.
  destruct w as [p c d s cs]. simpl. intros -> Hsid.
  unfold after. rewrite disconnected_run by done. simpl.
  apply lookup_delete_eq.
Qed.

(** C3, as the code has it.  A stream-start makes its stream the current
    one.  When the stream already has an entry, the dictionary and every list
    object are left as they are, so the history of the stream is the one it
    had: nothing is discarded.  When the stream has no entry, one is made,
    with an empty history. *)
Theorem start_keeps_an_existing_history (w : world) (ev : StartEvent) :
  let w' := after (on_start ev) w in
  result (on_start ev) w = Returned tt ∧
  current_stream_id w' = Some (stream_id ev) ∧
  match conversation_history_by_stream_id w !! stream_id ev with
  | Some _ =>
      conversation_history_by_stream_id w' =
        conversation_history_by_stream_id w ∧
      store w' = store w ∧
      history_of w' (stream_id ev) = history_of w (stream_id ev)
  | None => history_of w' (stream_id ev) = Some []
  end.
Proof.
  destruct w as [p c d s cs]. unfold result, after.
  rewrite on_start_run. simpl. unfold history_of. simpl.
  destruct (d !! stream_id ev) as [r|] eqn:Hd; simpl.
  - by rewrite Hd.
  - rewrite lookup_insert_eq. simpl. by rewrite list_lookup_middle.
Qed.

(** A disconnect with no current stream, or with one whose id is the empty
    string, changes nothing. *)
Lemma disconnected_idle (w : world) :
  Py.truthy (current_stream_id w) = false →
  disconnected w = (Returned tt, w).
Proof.
  destruct w as [p [sid|] d s cs]; simpl; intros Hidle.
  - unfold disconnected, on_disconnected, on_disconnected_log. run.
    by rewrite Hidle.
  - reflexivity.
Qed.

(** C8, as the code has it.  A disconnect returns without an exception and
    changes nothing but the dictionary.  It removes the entry of the stream
    that is current when it is handled, when the id of that stream is not the
    empty string: a lookup for it then finds nothing.  With no current stream,
    or with the empty string as its id, it removes nothing.  Every other key
    keeps its entry and its history.  A second disconnect returns without an
    exception and changes nothing. *)
Theorem disconnect_removes_the_entry (w : world) :
  let w' := after disconnected w in
  result disconnected w = Returned tt ∧
  (playing w' = playing w ∧ current_stream_id w' = current_stream_id w ∧
   store w' = store w ∧ calls w' = calls w) ∧
  (∀ sid, current_stream_id w = Some sid → sid ≠ "" →
          conversation_history_by_stream_id w' =
            delete sid (conversation_history_by_stream_id w) ∧
          conversation_history_by_stream_id w' !! sid = None ∧
          history_of w' sid = None) ∧
  (Py.truthy (current_stream_id w) = false →
   conversation_history_by_stream_id w' =
     conversation_history_by_stream_id w) ∧
  (∀ key, Some key ≠ current_stream_id w →
          conversation_history_by_stream_id w' !! key =
            conversation_history_by_stream_id w !! key ∧
          history_of w' key = history_of w key) ∧
  disconnected w' = (Returned tt, w').
Proof.
  intros w'. subst w'.
  destruct (disconnected_frame w) as (d' & Hrun & Hframe).
  unfold result, after. rewrite Hrun. simpl.
  split; [done|]. split; [done|]. split; [|split; [|split]].
  - intros sid Hcur Hsid. destruct w as [p c d s cs]. simpl in *. subst c.
    rewrite disconnected_run in Hrun by done. injection Hrun as <-.
    unfold history_of. simpl. by rewrite lookup_delete_eq.
  - intros Hidle. rewrite (disconnected_idle w Hidle) in Hrun.
    destruct w. simpl in *. by injection Hrun as <-.
  - intros key Hkey. unfold history_of. simpl.
    by rewrite (Hframe key Hkey).
  - destruct (Py.truthy (current_stream_id w)) eqn:Htruthy.
    + destruct w as [p [sid|] d s cs]; [|done]. simpl in *.
      assert (Hsid : sid ≠ "").
      { intros ->. by vm_compute in Htruthy. }
      rewrite disconnected_run in Hrun by done. injection Hrun as <-.
      rewrite disconnected_run by done. by rewrite delete_delete_eq.
    + rewrite (disconnected_idle w Htruthy) in Hrun.
      destruct w as [p c d s cs]. simpl in *. injection Hrun as <-.
      by apply (disconnected_idle (World p c d s cs)).
Qed.

(** C10, as the code has it.  After a stream-start for [a] and then one for
    another stream [b], the entry of [a] and its history are what they were
    before the second event; the disconnect that follows leaves them in place
    and changes the binding of no key other than [b].  It removes the entry
    of [b] when the id of [b] is not the empty string, and removes nothing
    when it is. *)
Theorem other_stream_history_survives (w0 : world) (a b : StartEvent) :
  well_formed w0 →
  stream_id a ≠ stream_id b →
  let w1 := after (on_start a) w0 in
  let w2 := after (on_start b) w1 in
  let w3 := after disconnected w2 in
  is_Some (history_of w1 (stream_id a)) ∧
  conversation_history_by_stream_id w2 !! stream_id a =
    conversation_history_by_stream_id w1 !! stream_id a ∧
  history_of w2 (stream_id a) = history_of w1 (stream_id a) ∧
  conversation_history_by_stream_id w3 !! stream_id a =
    conversation_history_by_stream_id w1 !! stream_id a ∧
  history_of w3 (stream_id a) = history_of w1 (stream_id a) ∧
  (∀ key, key ≠ stream_id b →
          conversation_history_by_stream_id w3 !! key =
            conversation_history_by_stream_id w2 !! key) ∧
  (stream_id b ≠ "" →
   conversation_history_by_stream_id w3 !! stream_id b = None) ∧
  (stream_id b = "" →
   conversation_history_by_stream_id w3 =
     conversation_history_by_stream_id w2).
Proof.
  intros Hwf Hab w1 w2 w3.
  assert (Hwf1 : well_formed w1) by by apply well_formed_on_start.
  destruct (on_start_frame b w1 (stream_id a) Hwf1 Hab) as [Hd2 Hh2].
  fold w2 in Hd2, Hh2.
  assert (Hcur : current_stream_id w2 = Some (stream_id b))
    by apply (on_start_history w1 b).
  destruct (disconnected_frame w2) as (d' & Hrun & Hframe).
  assert (Hd3 : ∀ key, key ≠ stream_id b →
            conversation_history_by_stream_id w3 !! key =
              conversation_history_by_stream_id w2 !! key).
  { intros key Hkey. subst w3. unfold after. rewrite Hrun. simpl.
    apply Hframe. rewrite Hcur. congruence. }
  assert (Hs3 : store w3 = store w2).
  { subst w3. unfold after. by rewrite Hrun. }
  split.
  { pose proof (on_start_history w0 a) as (_ & _ & Hh).
    fold w1 in Hh. rewrite Hh.
    destruct (conversation_history_by_stream_id w0 !! stream_id a) as [r|]
      eqn:Hr; [|done].
    unfold history_of. rewrite Hr. simpl. exact (Hwf _ _ Hr). }
  split; [exact Hd2|]. split; [exact Hh2|].
  split; [by rewrite Hd3|].
  split; [unfold history_of in *; by rewrite Hd3, Hs3|].
  split; [exact Hd3|]. split.
  - intros Hb. exact (disconnected_removes w2 (stream_id b) Hcur Hb).
  - intros Hb. subst w3.
    change (after disconnected w2) with (snd (disconnected w2)).
    rewrite disconnected_idle; [done|]. by rewrite Hcur, Hb.
Qed.

(** * Concrete runs *)


(** The scenario of the spec: one exchange, three chunks. *)
Example book_a_flight :
  let w :=
    after (on_deepgram_message demo_config (Returned "Sure, where to?")
             (Yield [x01] (Yield [x02] (Yield [x03] StopAsyncIteration)))
             (end_of_turn "book a flight"))
          (started "A") in
  history_of w "A" =
    Some [user_turn "book a flight"; assistant_turn "Sure, where to?"] ∧
  List.filter (λ c, negb (is_send_media c || is_send_checkpoint c)) (calls w)
    = [chat_completions_create "gpt-4o-mini"
         [Message "system" "You are a helpful assistant.";
          user_turn "book a flight"];
       convert_call demo_config "Sure, where to?"] ∧
  List.filter (λ c, is_send_media c || is_send_checkpoint c) (calls w)
    = [send_media [x01] "audio/x-l16" 16000;
       send_media [x02] "audio/x-l16" 16000;
       send_media [x03] "audio/x-l16" 16000;
       send_checkpoint "all_audio_played"] ∧
  playing (started "A") = false ∧
  playing w = true ∧
  playing (after on_played_stream w) = false.
Proof. vm_compute. repeat split. Qed.

Lemma history_capped_to_last_20_witness :
  store (started "A") !! 0 = Some [] ∧
  ∃ h',
    store (after (add_message_and_get_response demo_config
                    (Returned "Sure, where to?") "book a flight" 0)
                 (started "A")) !! 0 = Some h' ∧
    length h' ≤ 20.
Proof.
  split; [reflexivity|].
  destruct (history_capped_to_last_20 demo_config (started "A") 0 []
              "book a flight" "Sure, where to?" eq_refl)
    as [(h' & Hh' & Hle & _) _].
  exists h'. split; assumption.
Defined.

Lemma history_even_while_generation_answers_witness :
  store (started "A") !! 0 = Some [] ∧
  Nat.Even (length (@nil message)) ∧
  ∃ h',
    store (pipeline demo_config 0
             (answered [("hi", "Hello!"); ("and you?", "Fine.")])
             (started "A")) !! 0 = Some h' ∧
    Nat.Even (length h').
Proof.
  assert (Heven : Nat.Even (length (@nil message))) by (exists 0; reflexivity).
  split; [reflexivity|]. split; [exact Heven|].
  exact (proj1 (history_even_while_generation_answers demo_config
                  (started "A") 0 [] eq_refl Heven)
           [("hi", "Hello!"); ("and you?", "Fine.")]).
Defined.


Lemma disconnect_removes_the_entry_witness :
  let w := after (on_start (Start "B" "call-2")) after_one_reply in
  current_stream_id w = Some "B" ∧
  "B" ≠ "" ∧
  Some "A" ≠ current_stream_id w ∧
  history_of (after disconnected w) "B" = None ∧
  history_of (after disconnected w) "A" = history_of w "A".
Proof.
  intros w.
  assert (Hb : "B" ≠ "") by discriminate.
  assert (Ha : Some "A" ≠ current_stream_id w) by discriminate.
  split; [reflexivity|]. split; [exact Hb|]. split; [exact Ha|].
  destruct (disconnect_removes_the_entry w)
    as (_ & _ & Hremoved & _ & Hothers & _).
  split.
  - exact (proj2 (proj2 (Hremoved "B" eq_refl Hb))).
  - exact (proj2 (Hothers "A" Ha)).
Defined.


Lemma other_stream_history_survives_witness :
  well_formed initial_world ∧
  stream_id (Start "A" "call-1") ≠ stream_id (Start "B" "call-2") ∧
  history_of
    (after disconnected
       (after (on_start (Start "B" "call-2"))
          (after (on_start (Start "A" "call-1")) initial_world))) "A"
    = history_of (after (on_start (Start "A" "call-1")) initial_world) "A".
Proof.
  assert (Hne : stream_id (Start "A" "call-1") ≠ stream_id (Start "B" "call-2"))
    by discriminate.
  split; [apply well_formed_initial|]. split; [exact Hne|].
  destruct (other_stream_history_survives initial_world (Start "A" "call-1")
              (Start "B" "call-2") well_formed_initial Hne)
    as (_ & _ & _ & _ & Hh & _).
  exact Hh.
Defined.

(** ** Where the code departs from the stated behaviour *)

(** C3: a second stream-start for a stream that has a history keeps it. *)
Lemma duplicate_start_keeps_the_history :
  history_of after_one_reply "A" =
    Some [user_turn "hi"; assistant_turn "Hello!"] ∧
  history_of (after (on_start (Start "A" "call-1")) after_one_reply) "A" =
    Some [user_turn "hi"; assistant_turn "Hello!"] ∧
  history_of (after (on_start (Start "A" "call-1")) after_one_reply) "A" ≠
    Some [].
Proof. vm_compute. repeat split. discriminate. Qed.

(** C4: one invocation in which the generation collaborator raises leaves a
    history of one entry. *)
Lemma odd_history_after_failed_generation :
  history_of (started "A") "A" = Some [] ∧
  history_of (pipeline demo_config 0 [("hi", Raised "timeout")] (started "A"))
    "A" = Some [user_turn "hi"] ∧
  ¬ Nat.Even (length [user_turn "hi"]).
Proof.
  split; [reflexivity|]. split; [reflexivity|].
  intros [n Hn]. simpl in Hn. lia.
Qed.


(** C8: a stream that is no longer the current one when the disconnect is
    handled keeps its entry, and so does the stream whose id is the empty
    string. *)
Lemma stream_entry_survives_disconnect :
  (let w := after (on_start (Start "B" "call-2")) after_one_reply in
   current_stream_id w = Some "B" ∧
   result disconnected w = Returned tt ∧
   history_of (after disconnected w) "B" = None ∧
   history_of (after disconnected w) "A" =
     Some [user_turn "hi"; assistant_turn "Hello!"]) ∧
  (current_stream_id (started "") = Some "" ∧
   history_of (started "") "" = Some [] ∧
   result disconnected (started "") = Returned tt ∧
   history_of (after disconnected (started "")) "" = Some []).
Proof. vm_compute. repeat split. Qed.

(** C10: the second stream has the empty string as its id: the disconnect
    removes no entry, the one of the second stream included. *)
Lemma empty_second_stream_is_not_removed :
  let w2 := after (on_start (Start "" "call-2")) after_one_reply in
  stream_id (Start "A" "call-1") ≠ stream_id (Start "" "call-2") ∧
  history_of w2 "A" = Some [user_turn "hi"; assistant_turn "Hello!"] ∧
  history_of w2 "" = Some [] ∧
  result disconnected w2 = Returned tt ∧
  history_of (after disconnected w2) "" = Some [] ∧
  history_of (after disconnected w2) "A" =
    Some [user_turn "hi"; assistant_turn "Hello!"].
Proof. vm_compute. repeat split. discriminate. Qed.


(** * Configuration and call set-up: properties *)

(** ** Python strings *)

Lemma lower_char_idemp (c : Ascii.ascii) :
  Py.lower_char (Py.lower_char c) = Py.lower_char c.
Proof. by destruct c as [[] [] [] [] [] [] [] []]. Qed.

Lemma isspace_lower_char (c : Ascii.ascii) :
  Py.isspace (Py.lower_char c) = Py.isspace c.
Proof. by destruct c as [[] [] [] [] [] [] [] []]. Qed.

Lemma lower_idemp (s : string) : Py.lower (Py.lower s) = Py.lower s.
Proof.
  induction s as [|c s IH]; simpl; [done|].
  by rewrite lower_char_idemp, IH.
Qed.

Lemma lstrip_blank (s : string) : Py.blank s = true → Py.lstrip s = "".
Proof.
  induction s as [|c s IH]; simpl; [done|].
  intros [Hc Hs]%andb_true_iff. rewrite Hc. by apply IH.
Qed.

Lemma rstrip_blank (s : string) : Py.blank s = true → Py.rstrip s = "".
Proof.
  induction s as [|c s IH]; simpl; [done|].
  intros [Hc Hs]%andb_true_iff. by rewrite IH, Hc.
Qed.

Lemma lstrip_blank_app (ws s : string) :
  Py.blank ws = true → Py.lstrip (ws +:+ s) = Py.lstrip s.
Proof.
  induction ws as [|c ws IH]; simpl; [done|].
  intros [Hc Hs]%andb_true_iff. rewrite Hc. by apply IH.
Qed.

Lemma rstrip_app_blank (s ws : string) :
  Py.blank ws = true → Py.rstrip (s +:+ ws) = Py.rstrip s.
Proof.
  intros Hws. induction s as [|c s IH]; simpl.
  - by apply rstrip_blank.
  - by rewrite IH.
Qed.

Lemma strip_app_blank (s ws : string) :
  Py.blank ws = true → Py.strip (s +:+ ws) = Py.strip s.
Proof.
  intros Hws. unfold Py.strip. induction s as [|c s IH]; simpl.
  - by rewrite lstrip_blank.
  - destruct (Py.isspace c); [done|].
    change (String c (s +:+ ws)) with (String c s +:+ ws).
    by apply rstrip_app_blank.
Qed.

Lemma strip_padded (left value right : string) :
  Py.blank left = true → Py.blank right = true →
  Py.strip (left +:+ value +:+ right) = Py.strip value.
Proof.
  intros Hl Hr. unfold Py.strip at 1. rewrite lstrip_blank_app by done.
  by apply strip_app_blank.
Qed.

Lemma strip_blank (s : string) : Py.blank s = true → Py.strip s = "".
Proof. intros Hs. unfold Py.strip. by rewrite lstrip_blank. Qed.

Lemma lstrip_lower (s : string) :
  Py.lstrip (Py.lower s) = Py.lower (Py.lstrip s).
Proof.
  induction s as [|c s IH]; simpl; [done|].
  rewrite isspace_lower_char. by destruct (Py.isspace c).
Qed.

Lemma rstrip_lower (s : string) :
  Py.rstrip (Py.lower s) = Py.lower (Py.rstrip s).
Proof.
  induction s as [|c s IH]; simpl; [done|].
  rewrite IH, isspace_lower_char.
  destruct (Py.rstrip s); simpl; [by destruct (Py.isspace c) | done].
Qed.

Lemma strip_lower (s : string) :
  Py.strip (Py.lower s) = Py.lower (Py.strip s).
Proof. unfold Py.strip. by rewrite lstrip_lower, rstrip_lower. Qed.

(** ** utils.py *)

(** X1.  The default of [env_flag] counts only for a variable that is not
    set: for a variable that is set the result is the same with either
    default, and a value that is empty or all white space gives [False],
    also with the default [True]. *)
Theorem env_flag_default_only_when_unset (env : environ) (name : string)
    (default : bool) :
  env_flag (delete name env) name default = default ∧
  ∀ value : string,
    env_flag (<[name := value]> env) name default =
      env_flag (<[name := value]> env) name (negb default) ∧
    (Py.blank value = true →
     env_flag (<[name := value]> env) name default = false).
Proof.
  unfold env_flag, getenv. split.
  - by rewrite lookup_delete_eq.
  - intros value. rewrite lookup_insert_eq. split; [done|].
    intros Hblank. by rewrite strip_blank.
Qed.

(** X2.  [env_flag] does not see white space around the value nor the case
    of its letters: two values with the same lower-case form, one of them
    padded with white space, give the same result. *)
Theorem env_flag_ignores_case_and_padding (env : environ) (name : string)
    (default : bool) (left right value1 value2 : string) :
  Py.blank left = true →
  Py.blank right = true →
  Py.lower value1 = Py.lower value2 →
  env_flag (<[name := left +:+ value1 +:+ right]> env) name default =
    env_flag (<[name := value2]> env) name default.
Proof.
  intros Hl Hr Hlower. unfold env_flag, getenv. rewrite !lookup_insert_eq.
  by rewrite strip_padded, <- !strip_lower, Hlower.
Qed.

Lemma env_flag_ignores_case_and_padding_witness :
  Py.blank " " = true ∧ Py.blank "  " = true ∧
  Py.lower "TRUE" = Py.lower "true" ∧
  env_flag (<["ENABLE_RECORDING" := " " +:+ "TRUE" +:+ "  "]> ∅)
    "ENABLE_RECORDING" false =
  env_flag (<["ENABLE_RECORDING" := "true"]> ∅) "ENABLE_RECORDING" false.
Proof.
  split; [reflexivity|]. split; [reflexivity|]. split; [reflexivity|].
  exact (env_flag_ignores_case_and_padding ∅ "ENABLE_RECORDING" false
           " " "  " "TRUE" "true" eq_refl eq_refl eq_refl).
Defined.

(** X3.  The level is one of [DEBUG], [INFO], [WARN] and [ERROR], and it is
    [INFO] unless the variable is set to one of the spellings debug, warn,
    warning and error (in any case, with any white space around). *)
Theorem log_level_is_one_of_four (env : environ) (env_var_name : string) :
  get_log_level_from_env env env_var_name
    ∈ [logging.DEBUG; logging.INFO; logging.WARN; logging.ERROR] ∧
  (get_log_level_from_env env env_var_name ≠ logging.INFO →
   ∃ value,
     getenv env env_var_name = Some value ∧
     Py.lower (Py.strip value) ∈ ["debug"; "warn"; "warning"; "error"]).
Proof.
  unfold get_log_level_from_env.
  set (name := Py.lower (Py.strip _)).
  assert (Hname : ∀ spelling,
            name = spelling → spelling ≠ "info" →
            ∃ value, getenv env env_var_name = Some value ∧
                     Py.lower (Py.strip value) = spelling).
  { intros spelling Hn Hspelling. subst name.
    destruct (getenv env env_var_name) as [value|]; simpl in Hn.
    - destruct (negb _); [by exists value|].
      vm_compute in Hn. congruence.
    - vm_compute in Hn. congruence. }
  destruct (list_to_map _ !! name) as [level|] eqn:Hlevel; simpl.
  - apply (elem_of_list_to_map_2 (M := gmap string)) in Hlevel.
    rewrite !elem_of_cons, elem_of_nil in Hlevel.
    destruct Hlevel
      as [[= Hn ->]|[[= Hn ->]|[[= Hn ->]|[[= Hn ->]|[[= Hn ->]|[]]]]]];
      (split; [rewrite !elem_of_cons; auto 10|]); intros Hne; try done;
      (destruct (Hname _ Hn) as (value & Hvalue & Hspelling); [done|]);
      exists value; (split; [done|]); rewrite Hspelling, !elem_of_cons;
      auto 10.
  - split; [rewrite !elem_of_cons; auto 10 | done].
Qed.

Lemma truthy_Some (o : option string) :
  Py.truthy o = true ↔ ∃ value, o = Some value ∧ value ≠ "".
Proof.
  destruct o as [v|]; simpl.
  - rewrite negb_true_iff, bool_decide_eq_false. split.
    + intros Hv. by exists v.
    + by intros (v' & [= <-] & Hv).
  - split; [done | by intros (? & ? & _)].
Qed.

Lemma filter_nil {A : Type} (f : A → bool) (l : list A) :
  List.filter f l = [] ↔ Forall (λ x, f x = false) l.
Proof.
  induction l as [|x l IH]; simpl; [by split; intros; constructor|].
  destruct (f x) eqn:Hx.
  - split; [done|]. intros Hall. apply Forall_cons in Hall as [? _].
    congruence.
  - rewrite IH. split; [by constructor | by intros [_ ?]%Forall_cons].
Qed.

Lemma adopt_alias_other (name alias key : string) (env : environ) :
  key ≠ name → getenv (adopt_alias name alias env) key = getenv env key.
Proof.
  intros Hkey. unfold adopt_alias, getenv.
  destruct (_ && _); [|done]. by rewrite lookup_insert_ne.
Qed.

Lemma adopt_alias_name (name alias : string) (env : environ) :
  getenv (adopt_alias name alias env) name =
    if Py.truthy (getenv env name) then getenv env name
    else if Py.truthy (getenv env alias) then getenv env alias
    else getenv env name.
Proof.
  unfold adopt_alias.
  destruct (Py.truthy (getenv env name)); simpl; [done|].
  destruct (Py.truthy (getenv env alias)) eqn:Halias; [|done].
  apply truthy_Some in Halias as (v & Hv & _).
  unfold getenv in *. by rewrite lookup_insert_eq, Hv.
Qed.

(** After the adoption there is nothing left to adopt. *)
Lemma adopt_alias_settled (name alias : string) (env : environ) :
  negb (Py.truthy (getenv (adopt_alias name alias env) name))
  && Py.truthy (getenv (adopt_alias name alias env) alias) = false.
Proof.
  rewrite adopt_alias_name. unfold adopt_alias.
  destruct (Py.truthy (getenv env name)) eqn:Hname; simpl.
  - by rewrite Hname.
  - destruct (Py.truthy (getenv env alias)) eqn:Halias.
    + by rewrite Halias.
    + by rewrite Hname, Halias.
Qed.

Lemma adopt_alias_fixed (name alias : string) (env : environ) :
  negb (Py.truthy (getenv env name)) && Py.truthy (getenv env alias) = false →
  adopt_alias name alias env = env.
Proof. intros Hcond. unfold adopt_alias. by rewrite Hcond. Qed.

(** The environment [validate_and_normalize_env] leaves. *)
Lemma validate_environment (int : string → option Z) (env : environ) :
  snd (validate_and_normalize_env int env) =
    adopt_alias "ELEVENLABS_MODEL_ID" "ELEVEN_LABS_MODEL_ID"
      (adopt_alias "ELEVENLABS_VOICE_ID" "ELEVEN_LABS_VOICE_ID" env).
Proof.
  unfold validate_and_normalize_env.
  destruct (List.filter _ _); [|done].
  by repeat case_match.
Qed.

Lemma normalized_twice (env : environ) :
  let normalize e :=
    adopt_alias "ELEVENLABS_MODEL_ID" "ELEVEN_LABS_MODEL_ID"
      (adopt_alias "ELEVENLABS_VOICE_ID" "ELEVEN_LABS_VOICE_ID" e) in
  normalize (normalize env) = normalize env.
Proof.
  intros normalize. unfold normalize.
  rewrite (adopt_alias_fixed "ELEVENLABS_VOICE_ID").
  - apply adopt_alias_fixed, adopt_alias_settled.
  - rewrite !(adopt_alias_other "ELEVENLABS_MODEL_ID") by done.
    apply adopt_alias_settled.
Qed.

(** X4.  [validate_and_normalize_env] returns without an exception exactly
    when, in the environment it leaves, each of the ten required variables
    is set to a non-empty value and [int] accepts the value of
    [AUDIO_SAMPLE_RATE]. *)
Theorem validation_succeeds_iff (int : string → option Z) (env : environ) :
  let env' := snd (validate_and_normalize_env int env) in
  fst (validate_and_normalize_env int env) = Returned tt ↔
  Forall (λ var, ∃ value, getenv env' var = Some value ∧ value ≠ "")
    required_vars ∧
  ∃ value n, getenv env' "AUDIO_SAMPLE_RATE" = Some value ∧
             int value = Some n.
Proof.
  intros env'. subst env'. rewrite validate_environment.
  unfold validate_and_normalize_env.
  set (env' := adopt_alias _ _ (adopt_alias _ _ env)).
  set (missing := List.filter _ required_vars).
  assert (Hmissing :
    missing = [] ↔
    Forall (λ var, ∃ value, getenv env' var = Some value ∧ value ≠ "")
      required_vars).
  { subst missing. rewrite filter_nil. apply Forall_iff. intros var.
    rewrite negb_false_iff. apply truthy_Some. }
  split.
  - intros Hres.
    destruct missing as [|m ms]; [|by repeat case_match].
    pose proof (proj1 Hmissing eq_refl) as Hall. split; [exact Hall|].
    assert (Hrate : ∃ value, getenv env' "AUDIO_SAMPLE_RATE" = Some value
                             ∧ value ≠ "").
    { eapply (proj1 (Forall_forall _ _) Hall). unfold required_vars.
      rewrite !elem_of_cons. auto 20. }
    destruct Hrate as (value & Hvalue & Hne).
    exists value. rewrite Hvalue in Hres |- *.
    assert (Htruthy : Py.truthy (Some value) = true)
      by (apply truthy_Some; eauto).
    rewrite Htruthy in Hres.
    destruct (int value) as [n|]; [by exists n | done].
  - intros [Hall (value & n & Hvalue & Hint)].
    rewrite (proj2 Hmissing Hall), Hvalue, Hint.
    by destruct (Py.truthy (Some value)).
Qed.

(** X5.  The normalisation touches two names only.  Each of
    [ELEVENLABS_VOICE_ID] and [ELEVENLABS_MODEL_ID] keeps its own value when
    it is set and not empty; otherwise it takes the value of its alias when
    that one is set and not empty; otherwise it stays as it is.  Every other
    variable is left as it is, whether the call returns or raises. *)
Theorem aliases_fill_only_missing_names (int : string → option Z)
    (env : environ) :
  let env' := snd (validate_and_normalize_env int env) in
  (∀ name, name ∉ ["ELEVENLABS_VOICE_ID"; "ELEVENLABS_MODEL_ID"] →
           getenv env' name = getenv env name) ∧
  (∀ name alias,
     (name, alias) ∈ [("ELEVENLABS_VOICE_ID", "ELEVEN_LABS_VOICE_ID");
                      ("ELEVENLABS_MODEL_ID", "ELEVEN_LABS_MODEL_ID")] →
     getenv env' name =
       if Py.truthy (getenv env name) then getenv env name
       else if Py.truthy (getenv env alias) then getenv env alias
       else getenv env name).
Proof.
  intros env'. subst env'. rewrite validate_environment. split.
  - intros name Hname. rewrite !elem_of_cons, elem_of_nil in Hname.
    rewrite !adopt_alias_other by (intros ->; tauto). done.
  - intros name alias Hpair. rewrite !elem_of_cons, elem_of_nil in Hpair.
    destruct Hpair as [[= -> ->]|[[= -> ->]|[]]].
    + rewrite adopt_alias_other by done. apply adopt_alias_name.
    + rewrite adopt_alias_name.
      by rewrite !(adopt_alias_other "ELEVENLABS_VOICE_ID") by done.
Qed.

(** X6.  A second call changes nothing: on the environment left by a first
    call, [validate_and_normalize_env] leaves the same environment and
    returns, or raises with the same message, as the first call did. *)
Theorem validation_is_idempotent (int : string → option Z) (env : environ) :
  validate_and_normalize_env int (snd (validate_and_normalize_env int env)) =
    validate_and_normalize_env int env.
Proof.
  rewrite validate_environment. unfold validate_and_normalize_env.
  pose proof (normalized_twice env) as Htwice. simpl in Htwice.
  by rewrite Htwice.
Qed.

(** ** The XML of the call *)

(** The mode read from a variable that is unset, empty, all white space or a
    spelling of auto. *)
Lemma mode_auto (raw : option string) :
  (∀ value, raw = Some value → Py.lower (Py.strip value) ∈ [""; "auto"]) →
  (if bool_decide (Py.lower (Py.strip (Py.or_else raw "auto")) = "")
   then "auto"
   else Py.lower (Py.strip (Py.or_else raw "auto"))) = "auto".
Proof.
  intros Hraw. destruct raw as [value|]; [|reflexivity].
  unfold Py.or_else. destruct (Py.truthy (Some value)); [|reflexivity].
  specialize (Hraw value eq_refl).
  rewrite !elem_of_cons, elem_of_nil in Hraw.
  destruct Hraw as [->|[->|[]]]; reflexivity.
Qed.


(** X7.  With [WEBSOCKET_URL] and [RECORDING_CALLBACK_URL] each unset, empty,
    all white space or a spelling of auto (in any case, with any white space
    around), the answer holds the stream element with the address
    [ws://<host>/stream], after the record element with the callback
    [http://<host>/recording] when recording is enabled, and alone when it is
    not. *)
Theorem automatic_urls (cfg : config) (env : environ) (host : option string) :
  (∀ value, getenv env "WEBSOCKET_URL" = Some value →
            Py.lower (Py.strip value) ∈ [""; "auto"]) →
  (∀ value, getenv env "RECORDING_CALLBACK_URL" = Some value →
            Py.lower (Py.strip value) ∈ [""; "auto"]) →
  stream_xml cfg env host =
    (if env_flag env "ENABLE_RECORDING" true
     then [RecordElement 86400 true
             ("http://" +:+ Py.str host +:+ "/recording")]
     else [])
    ++ [StreamElement true true
          (AUDIO_CONTENT_TYPE cfg +:+ ";rate="
           +:+ pretty (AUDIO_SAMPLE_RATE cfg))
          ("ws://" +:+ Py.str host +:+ "/stream")].
Proof.
  intros Hws Hcb. unfold stream_xml.
  rewrite (mode_auto (getenv env "RECORDING_CALLBACK_URL") Hcb).
  rewrite (mode_auto (Some (default "auto" (getenv env "WEBSOCKET_URL")))).
  - reflexivity.
  - intros value [= <-].
    destruct (getenv env "WEBSOCKET_URL") as [v|]; simpl; [by apply Hws|].
    rewrite !elem_of_cons. by right; left.
Qed.

Lemma automatic_urls_witness :
  let env : environ :=
    <["WEBSOCKET_URL" := " AUTO "]> (<["ENABLE_RECORDING" := "no"]> ∅) in
  (∀ value, getenv env "WEBSOCKET_URL" = Some value →
            Py.lower (Py.strip value) ∈ [""; "auto"]) ∧
  (∀ value, getenv env "RECORDING_CALLBACK_URL" = Some value →
            Py.lower (Py.strip value) ∈ [""; "auto"]) ∧
  stream_xml demo_config env (Some "agent.example") =
    [StreamElement true true "audio/x-l16;rate=16000"
       "ws://agent.example/stream"].
Proof.
  intros env.
  assert (Hws : ∀ value, getenv env "WEBSOCKET_URL" = Some value →
                         Py.lower (Py.strip value) ∈ [""; "auto"]).
  { intros value [= <-]. rewrite !elem_of_cons. by right; left. }
  assert (Hcb : ∀ value, getenv env "RECORDING_CALLBACK_URL" = Some value →
                         Py.lower (Py.strip value) ∈ [""; "auto"]).
  { intros value Hvalue. vm_compute in Hvalue. discriminate. }
  split; [exact Hws|]. split; [exact Hcb|].
  exact (automatic_urls demo_config env (Some "agent.example") Hws Hcb).
Defined.



(** ** The relay of the caller's audio *)

Lemma relay_before_connection (events : list relay_event) :
  connected ∉ events →
  ∀ received n,
    fold_left relay_step events (Relay false received n) =
      Relay false received (n + length (frames events)).
Proof.
  induction events as [|e events IH]; intros Hnot received n; simpl.
  - f_equal. lia.
  - apply not_elem_of_cons in Hnot as [Hne Hnot].
    destruct e as [|raw_media]; [done|].
    unfold relay_step at 2, on_plivo_media. simpl.
    rewrite IH by done. f_equal. lia.
Qed.

Lemma relay_after_connection (events : list relay_event) :
  ∀ received n,
    fold_left relay_step events (Relay true received n) =
      Relay true (received ++ frames events) n.
Proof.
  induction events as [|e events IH]; intros received n; simpl.
  - by rewrite app_nil_r.
  - destruct e as [|raw_media];
      unfold relay_step at 2, deepgram_connected, on_plivo_media;
      simpl; rewrite IH; [done|].
    by rewrite <- app_assoc.
Qed.

(** X9.  The audio of the media events handled before the Deepgram connection
    is set is not sent (one warning each); from then on the audio of every
    media event is sent to Deepgram, unchanged and in the order of the
    events. *)
Theorem media_relayed_once_connected (before later : list relay_event) :
  connected ∉ before →
  fold_left relay_step (before ++ connected :: later) initial_relay =
    Relay true (frames later) (length (frames before)).
Proof.
  intros Hnot. rewrite fold_left_app. unfold initial_relay.
  rewrite relay_before_connection by done. simpl.
  unfold deepgram_connected. simpl. by rewrite relay_after_connection.
Qed.

Lemma media_relayed_once_connected_witness :
  (connected ∉ [media [x01]; media [x02]]) ∧
  fold_left relay_step
    ([media [x01]; media [x02]] ++ connected :: [media [x03]; media [x04]])
    initial_relay = Relay true [[x03]; [x04]] 2.
Proof.
  assert (Hnot : connected ∉ [media [x01]; media [x02]]).
  { rewrite !elem_of_cons, elem_of_nil. intros [?|[?|[]]]; discriminate. }
  split; [exact Hnot|].
  exact (media_relayed_once_connected [media [x01]; media [x02]]
           [media [x03]; media [x04]] Hnot).
Defined.

(** * The conversation: further properties *)

(** ** Streams do not share a history *)








(** ** The length and the content of a history *)

(** X11.  Invocations of the response pipeline in which the generation
    collaborator raises only append: after any number of them in a row the
    history is the one before followed by their user turns, one entry more
    for each, with no trim, also beyond 20 entries. *)
Theorem failed_invocations_only_append cfg (attempts : list (string * string))
    (w : world) (history : ref) (h : list message) :
  store w !! history = Some h →
  store (pipeline cfg history (failed attempts) w) !! history =
    Some (h ++ map (λ a, user_turn a.1) attempts) ∧
  length (h ++ map (λ a, user_turn a.1) attempts) = length h + length attempts.
Proof.
  intros Hh. split; [|by rewrite length_app, length_map].
  revert w h Hh. induction attempts as [|[u e] l IH]; intros w h Hh; simpl.
  - by rewrite app_nil_r.
  - unfold after at 1. rewrite (add_message_raised _ _ _ _ _ _ Hh). simpl.
    rewrite (IH _ (h ++ [user_turn u])).
    + by rewrite <- app_assoc.
    + simpl. apply list_lookup_insert_eq. by eapply lookup_lt_Some.
Qed.

Lemma failed_invocations_only_append_witness :
  store (pipeline demo_config 0
           (answered (replicate 10 ("hi", "Hello!"))) (started "A")) !! 0
    = Some (turns_of (replicate 10 ("hi", "Hello!"))) ∧
  length <$>
    store (pipeline demo_config 0 (failed [("one", "timeout"); ("two", "timeout")])
             (pipeline demo_config 0
                (answered (replicate 10 ("hi", "Hello!"))) (started "A")))
      !! 0
    = Some 22.
Proof.
  assert (Hfull :
    store (pipeline demo_config 0
             (answered (replicate 10 ("hi", "Hello!"))) (started "A")) !! 0
      = Some (turns_of (replicate 10 ("hi", "Hello!"))))
    by (vm_compute; reflexivity).
  split; [exact Hfull|].
  rewrite (proj1 (failed_invocations_only_append demo_config
                    [("one", "timeout"); ("two", "timeout")] _ 0 _ Hfull)).
  reflexivity.
Defined.

Lemma drop_turns_of (k : nat) (exchanges : list (string * string)) :
  drop (2 * k) (turns_of exchanges) = turns_of (drop k exchanges).
Proof.
  revert exchanges. induction k as [|k IH]; intros [|e l]; try done.
  replace (2 * S k) with (S (S (2 * k))) by lia. simpl. apply IH.
Qed.

(** X12.  On a new, empty history, after any number of exchanges that the
    generation collaborator answers, the history is made of the turns of the
    last ten exchanges (of all of them while there are at most ten), each as
    a user turn followed by its assistant turn. *)
Theorem answered_exchanges_leave_the_last_ten cfg
    (exchanges : list (string * string)) (w : world) (history : ref) :
  store w !! history = Some [] →
  store (pipeline cfg history (answered exchanges) w) !! history =
    Some (turns_of (Py.last_n 10 exchanges)).
Proof.
  intros Hh. rewrite (pipeline_answered _ _ _ _ [] Hh) by (simpl; lia).
  f_equal. simpl. unfold Py.last_n. rewrite turns_of_length, <- drop_turns_of.
  f_equal. lia.
Qed.

Lemma answered_exchanges_leave_the_last_ten_witness :
  store (started "A") !! 0 = Some [] ∧
  store (pipeline demo_config 0
           (answered [("hi", "Hello!"); ("and you?", "Fine.")])
           (started "A")) !! 0 =
    Some [user_turn "hi"; assistant_turn "Hello!";
          user_turn "and you?"; assistant_turn "Fine."].
Proof.
  split; [reflexivity|].
  exact (answered_exchanges_leave_the_last_ten demo_config
           [("hi", "Hello!"); ("and you?", "Fine.")] (started "A") 0 eq_refl).
Defined.

(** X13.  A history whose entries have the roles user and assistant keeps
    only such entries through any invocations of the response pipeline,
    answered or not: the system prompt, sent at the head of every generation
    request, is never stored. *)
Theorem histories_hold_only_turns cfg
    (invocations : list (string * outcome string)) (w : world) (history : ref)
    (h : list message) :
  store w !! history = Some h →
  Forall is_turn h →
  ∃ h', store (pipeline cfg history invocations w) !! history = Some h' ∧
        Forall is_turn h'.
Proof.
  revert w h. induction invocations as [|[u [a|e]] l IH];
    intros w h Hh Hturns; simpl.
  - by exists h.
  - unfold after at 1. rewrite (add_message_returned _ _ _ _ _ _ Hh). simpl.
    eapply IH.
    + simpl. apply list_lookup_insert_eq. by eapply lookup_lt_Some.
    + unfold Py.last_n. apply Forall_drop, Forall_app. split; [done|].
      apply Forall_cons; split; [by left|].
      apply Forall_cons; split; [by right | apply Forall_nil_2].
  - unfold after at 1. rewrite (add_message_raised _ _ _ _ _ _ Hh). simpl.
    eapply IH.
    + simpl. apply list_lookup_insert_eq. by eapply lookup_lt_Some.
    + apply Forall_app. split; [done|].
      apply Forall_cons; split; [by left | apply Forall_nil_2].
Qed.

Lemma histories_hold_only_turns_witness :
  store (started "A") !! 0 = Some [] ∧
  Forall is_turn [] ∧
  ∃ h',
    store (pipeline demo_config 0
             [("hi", Returned "Hello!"); ("and you?", Raised "timeout")]
             (started "A")) !! 0 = Some h' ∧
    Forall is_turn h'.
Proof.
  split; [reflexivity|]. split; [constructor|].
  exact (histories_hold_only_turns demo_config
           [("hi", Returned "Hello!"); ("and you?", Raised "timeout")]
           (started "A") 0 [] eq_refl (Forall_nil_2 _)).
Defined.

(** ** Playback *)

(** X15.  A stream-start that follows the disconnect of the same stream finds
    no history: the stream starts again with an empty one (the stream being
    the current one at the disconnect, with an id that is not empty). *)
Theorem restart_after_disconnect_is_fresh (w : world) (ev : StartEvent) :
  current_stream_id w = Some (stream_id ev) →
  stream_id ev ≠ "" →
  history_of (after (on_start ev) (after disconnected w)) (stream_id ev) =
    Some [].
Proof.
  intros Hcur Hsid.
  destruct (on_start_history (after disconnected w) ev) as (_ & _ & ->).
  by rewrite (disconnected_removes w (stream_id ev) Hcur Hsid).
Qed.

Lemma restart_after_disconnect_is_fresh_witness :
  current_stream_id after_one_reply = Some (stream_id (Start "A" "call-2")) ∧
  stream_id (Start "A" "call-2") ≠ "" ∧
  history_of after_one_reply "A" =
    Some [user_turn "hi"; assistant_turn "Hello!"] ∧
  history_of (after (on_start (Start "A" "call-2"))
                (after disconnected after_one_reply)) "A" = Some [].
Proof.
  assert (Hne : stream_id (Start "A" "call-2") ≠ "") by discriminate.
  split; [reflexivity|]. split; [exact Hne|]. split; [reflexivity|].
  exact (restart_after_disconnect_is_fresh after_one_reply
           (Start "A" "call-2") eq_refl Hne).
Defined.

(** X16.  In every world a connection can be in, [playing] is set only if a
    synthesis request has been made on the connection. *)
Theorem playing_only_after_a_synthesis_request cfg (w : world) :
  reachable cfg w →
  playing w = true →
  ∃ text, convert_call cfg text ∈ calls w.
Proof.
  induction 1 as [|w e Hw IH]; [done|].
  pose proof (reachable_well_formed cfg w Hw) as Hwf.
  destruct e as [answer audio message|ev| |]; simpl.
  - destruct (is_turn_info message "EndOfTurn") eqn:Heot.
    + destruct answer as [reply|err].
      * destruct (on_deepgram_message_answered cfg reply audio message w
                    Hwf Heot) as (w' & Hrun & _ & _ & _ & Hcalls).
        unfold after. rewrite Hrun. simpl. intros _. exists reply.
        rewrite Hcalls, elem_of_app, elem_of_cons, elem_of_app, elem_of_cons.
        right; right; right. by left.
      * destruct (on_deepgram_message_raised cfg err audio message w
                    Hwf Heot) as (w' & Hrun & Hp & _ & _ & Hcalls).
        unfold after. rewrite Hrun. simpl. rewrite Hp, Hcalls.
        intros (text & Htext)%IH. exists text. apply elem_of_app. by left.
    + unfold after, on_deepgram_message. rewrite Heot. exact IH.
  - destruct w as [p c d s cs]. unfold after. rewrite on_start_run. simpl.
    destruct (d !! stream_id ev); exact IH.
  - done.
  - destruct (disconnected_frame w) as (d' & Hrun & _).
    unfold after. rewrite Hrun. exact IH.
Qed.

Lemma playing_only_after_a_synthesis_request_witness :
  reachable demo_config after_one_reply ∧
  playing after_one_reply = true ∧
  ∃ text, convert_call demo_config text ∈ calls after_one_reply.
Proof.
  assert (Hreach : reachable demo_config after_one_reply).
  { exact (reachable_after demo_config _
             (deepgram_message (Returned "Hello!")
                (Yield [x01; x02] StopAsyncIteration) (end_of_turn "hi"))
             (reachable_after demo_config _
                (plivo_start (Start "A" "call-1"))
                (reachable_initial demo_config))). }
  split; [exact Hreach|]. split; [reflexivity|].
  exact (playing_only_after_a_synthesis_request demo_config after_one_reply
           Hreach eq_refl).
Defined.

(** * The handlers with the Plivo task running: properties *)

Arguments add_message_and_get_response_live : simpl never.
Arguments stream_elevenlabs_audio_live : simpl never.

(** ** The Plivo task during an await *)

Lemma on_telephony_event_run (e : telephony_event) (w : world) :
  ∃ w',
    on_telephony_event e w = (Returned tt, w') ∧
    calls w' = calls w ∧
    playing w' = playing w && negb (is_stream_played e).
Proof.
  destruct e as [ev| |]; simpl.
  - destruct w as [p c d s cs]. rewrite on_start_run.
    eexists. split; [reflexivity|].
    destruct (d !! stream_id ev); simpl; by rewrite andb_true_r.
  - eexists. split; [reflexivity|]. simpl. by rewrite andb_false_r.
  - destruct (disconnected_frame w) as (d' & -> & _).
    eexists. split; [reflexivity|]. simpl. by rewrite andb_true_r.
Qed.

Lemma meanwhile_run (events : list telephony_event) :
  ∀ w, ∃ w',
    meanwhile events w = (Returned tt, w') ∧
    calls w' = calls w ∧
    playing w' = playing w && negb (existsb is_stream_played events).
Proof.
  induction events as [|e events IH]; intros w; simpl.
  - exists w. split; [reflexivity|]. by rewrite andb_true_r.
  - destruct (on_telephony_event_run e w) as (w1 & Hrun & Hcalls & Hplaying).
    destruct (IH w1) as (w2 & Hrest & Hcalls2 & Hplaying2).
    exists w2. unfold mbind, M_bind. rewrite Hrun, Hrest.
    split; [reflexivity|]. split; [congruence|].
    rewrite Hplaying2, Hplaying, negb_orb. by rewrite andb_assoc.
Qed.

Lemma await_answer_run {A : Type} (a : awaited A) (w : world) :
  ∃ w',
    await_answer a w = (answer a, w') ∧
    calls w' = calls w ∧
    playing w' = playing w && negb (existsb is_stream_played (during a)).
Proof.
  destruct (meanwhile_run (during a) w) as (w1 & Hrun & Hcalls & Hplaying).
  exists w1. unfold await_answer, mbind, M_bind, await. by rewrite Hrun.
Qed.

(** ** The response pipeline while the Plivo task runs *)

Lemma add_message_live_run cfg (generation : awaited string)
    (user_message : string) (history : ref) (w : world) :
  ∃ w' messages,
    add_message_and_get_response_live cfg generation user_message history w =
      (answer generation, w') ∧
    calls w' =
      calls w ++ [chat_completions_create (OPENAI_MODEL cfg) messages] ∧
    playing w' =
      playing w && negb (existsb is_stream_played (during generation)).
Proof.
  unfold add_message_and_get_response_live, get_openai_response_live, append,
    deref, assign_all.
  unfold mbind, M_bind, mret, M_ret, emit, modify, read.
  match goal with
  | |- context [await_answer generation ?w0] =>
      destruct (await_answer_run generation w0)
        as (w1 & -> & Hcalls & Hplaying)
  end.
  simpl in Hcalls, Hplaying.
  destruct (answer generation) as [reply|e].
  - destruct (decide _); eexists _, _; (split; [reflexivity|]); simpl;
      by rewrite Hcalls, Hplaying.
  - eexists _, _; split; [reflexivity|]. by rewrite Hcalls, Hplaying.
Qed.

(** ** Speech synthesis while the Plivo task runs *)

Lemma async_for_audio_chunk_live_run cfg (script : playback) :
  ∀ w, ∃ w',
    async_for_audio_chunk_live cfg script w =
      (match stop_of script with
       | stream_ended => Returned tt
       | send_raised e | synthesis_raised e => Raised e
       end, w') ∧
    calls w' = calls w ++ media_calls_of cfg (sent_chunks script).
Proof.
  induction script as [next|next chunk send sleep rest IH|next e];
    intros w; simpl.
  - destruct (meanwhile_run next w) as (w1 & -> & Hcalls & _).
    exists w1. split; [reflexivity|]. by rewrite app_nil_r.
  - unfold mbind, M_bind, emit, modify.
    destruct (meanwhile_run next w) as (w1 & -> & Hcalls1 & _).
    match goal with
    | |- context [await_answer send ?w0] =>
        destruct (await_answer_run send w0) as (w2 & -> & Hcalls2 & _)
    end.
    simpl in Hcalls2. destruct (answer send) as [[]|e].
    + destruct (meanwhile_run sleep w2) as (w3 & -> & Hcalls3 & _).
      destruct (IH w3) as (w4 & -> & Hcalls4).
      exists w4. split; [reflexivity|].
      rewrite Hcalls4, Hcalls3, Hcalls2, Hcalls1, <- app_assoc. done.
    + exists w2. split; [reflexivity|]. by rewrite Hcalls2, Hcalls1.
  - unfold mbind, M_bind, await.
    destruct (meanwhile_run next w) as (w1 & -> & Hcalls & _).
    exists w1. split; [reflexivity|]. by rewrite app_nil_r.
Qed.

Lemma stream_elevenlabs_audio_live_run cfg (script : playback)
    (checkpoint : awaited unit) (text : string) (w : world) :
  ∃ w',
    stream_elevenlabs_audio_live cfg script checkpoint text w =
      (playback_result script checkpoint, w') ∧
    calls w' = calls w ++ convert_call cfg text :: playback_calls cfg script.
Proof.
  unfold stream_elevenlabs_audio_live, playback_result, playback_calls.
  unfold mbind, M_bind, emit, modify.
  match goal with
  | |- context [async_for_audio_chunk_live cfg script ?w0] =>
      destruct (async_for_audio_chunk_live_run cfg script w0)
        as (w1 & -> & Hcalls1)
  end.
  simpl in Hcalls1. destruct (stop_of script) as [|e|e].
  - match goal with
    | |- context [await_answer checkpoint ?w0] =>
        destruct (await_answer_run checkpoint w0) as (w2 & -> & Hcalls2 & _)
    end.
    simpl in Hcalls2. exists w2. split; [reflexivity|].
    rewrite Hcalls2, Hcalls1, <- !app_assoc. done.
  - exists w1. split; [reflexivity|].
    rewrite Hcalls1, app_nil_r, <- app_assoc. done.
  - exists w1. split; [reflexivity|].
    rewrite Hcalls1, app_nil_r, <- app_assoc. done.
Qed.

Lemma media_calls_of_no_checkpoint cfg (l : list (list byte)) :
  List.filter is_send_checkpoint (media_calls_of cfg l) = [].
Proof. induction l as [|c l IH]; simpl; done. Qed.

(** With nothing handled by the Plivo task and sends that return, the
    playback is the one of the first part. *)
Lemma undisturbed_playback_loop cfg (audio : audio_stream) (w : world) :
  async_for_audio_chunk_live cfg (undisturbed_playback audio) w =
    async_for_audio_chunk cfg audio w.
Proof.
  revert w. induction audio as [|chunk rest IH|e]; intros w; simpl; try done.
  unfold mbind, M_bind, emit, modify, await_answer, await. simpl.
  apply IH.
Qed.

Lemma undisturbed_stream cfg (audio : audio_stream) (text : string)
    (w : world) :
  stream_elevenlabs_audio_live cfg (undisturbed_playback audio)
    (undisturbed (Returned tt)) text w =
  stream_elevenlabs_audio cfg audio text w.
Proof.
  unfold stream_elevenlabs_audio_live, stream_elevenlabs_audio.
  unfold mbind, M_bind, emit, modify, await_answer, await. simpl.
  rewrite undisturbed_playback_loop.
  by destruct (async_for_audio_chunk cfg audio _) as [[[]|e] w1].
Qed.

Lemma undisturbed_pipeline cfg (reply : outcome string)
    (user_message : string) (history : ref) (w : world) :
  add_message_and_get_response_live cfg (undisturbed reply) user_message
    history w =
  add_message_and_get_response cfg reply user_message history w.
Proof. reflexivity. Qed.

(** The handler of the first part is the one of this part when the Plivo
    task handles nothing during its awaits and every send returns. *)
Lemma undisturbed_on_deepgram_message cfg (reply : outcome string)
    (audio : audio_stream) (message : dg_message) (w : world) :
  on_deepgram_message_live cfg (undisturbed reply) (undisturbed (Returned tt))
    (undisturbed_playback audio) (undisturbed (Returned tt)) message w =
  on_deepgram_message cfg reply audio message w.
Proof.
  unfold on_deepgram_message_live, on_deepgram_message.
  destruct (is_turn_info message "EndOfTurn"); [|done].
  unfold mbind, M_bind, read.
  destruct (setdefault _ w) as [[r|e] w1]; [|done].
  rewrite undisturbed_pipeline.
  destruct (add_message_and_get_response cfg reply _ r w1) as [[text|e] w2];
    [|done].
  destruct (playing w2); simpl; apply undisturbed_stream.
Qed.

(** ** An end-of-turn message while the Plivo task runs *)

Lemma on_deepgram_message_live_playback cfg (generation : awaited string)
    (clear : awaited unit) (script : playback) (checkpoint : awaited unit)
    (message : dg_message) (w : world) :
  is_turn_info message "EndOfTurn" = true →
  on_deepgram_message_live cfg generation clear script checkpoint message w =
    (text ← end_of_turn_until_playback_live cfg generation clear message;
     stream_elevenlabs_audio_live cfg script checkpoint text) w.
Proof.
  intros Heot.
  unfold on_deepgram_message_live, end_of_turn_until_playback_live.
  rewrite Heot. unfold mbind, M_bind, mret, M_ret, read.
  destruct (setdefault _ w) as [[r|e] w1]; [|reflexivity].
  destruct (add_message_and_get_response_live cfg generation _ r w1)
    as [[text|e] w2]; [|reflexivity].
  destruct (playing w2); [|reflexivity].
  unfold emit, modify.
  match goal with
  | |- context [await_answer clear ?w0] =>
      destruct (await_answer clear w0) as [[[]|e] w3]; reflexivity
  end.
Qed.

(** The part of the handler before the playback, when the generation
    collaborator answers: [playing] is tested after the await of the
    generation, so a played-stream event handled during that await counts. *)
Lemma end_of_turn_until_playback_live_run cfg (generation : awaited string)
    (clear : awaited unit) (message : dg_message) (reply : string)
    (w : world) :
  answer generation = Returned reply →
  let still_playing :=
    playing w && negb (existsb is_stream_played (during generation)) in
  ∃ w' messages,
    end_of_turn_until_playback_live cfg generation clear message w =
      (if still_playing
       then match answer clear with
            | Returned _ => Returned reply
            | Raised e => Raised e
            end
       else Returned reply, w') ∧
    calls w' =
      calls w ++ chat_completions_create (OPENAI_MODEL cfg) messages
      :: (if still_playing then [send_clear_audio] else []) ∧
    (fst (end_of_turn_until_playback_live cfg generation clear message w)
       = Returned reply → playing w' = false).
Proof.
  intros Hreply still_playing. subst still_playing.
  destruct w as [p c d s cs]. simpl playing.
  unfold end_of_turn_until_playback_live.
  unfold mbind, M_bind, mret, M_ret, read. rewrite setdefault_run.
  destruct (d !! _) as [r|];
    match goal with
    | |- context [add_message_and_get_response_live cfg generation ?u ?r ?w] =>
        destruct (add_message_live_run cfg generation u r w)
          as (w1 & messages & -> & Hcalls & Hplaying)
    end;
    rewrite Hreply; simpl in Hcalls, Hplaying; rewrite Hplaying;
    (destruct (p && _) eqn:Hstill;
     [ unfold emit, modify;
       match goal with
       | |- context [await_answer clear ?w0] =>
           destruct (await_answer_run clear w0) as (w2 & -> & Hcalls2 & _)
       end;
       simpl in Hcalls2;
       destruct (answer clear) as [[]|e];
       eexists _, messages; (split; [reflexivity|]); simpl;
       rewrite Hcalls2, Hcalls, <- app_assoc; split; done
     | exists w1, messages; (split; [reflexivity|]);
       rewrite Hcalls; split; done ]).
Qed.

Lemma playback_calls_no_clear cfg (script : playback) (text : string) :
  send_clear_audio ∉ convert_call cfg text :: playback_calls cfg script.
Proof.
  apply not_elem_of_cons. split; [done|].
  unfold playback_calls. apply not_elem_of_app. split.
  - induction (sent_chunks script) as [|c l IH]; simpl.
    + apply not_elem_of_nil.
    + apply not_elem_of_cons. by split.
  - destruct (stop_of script); try apply not_elem_of_nil.
    apply not_elem_of_cons. split; [done | apply not_elem_of_nil].
Qed.

(** C2, as the code has it.  On an end-of-turn message that the generation
    collaborator answers, [playing] is tested after the await of the
    generation.  When it was set at the arrival of the message and no
    played-stream event was handled during that await, [send_clear_audio] is
    called after the generation request and before the synthesis request and
    every chunk, and when that call raises the exception leaves the handler
    and nothing else is sent.  When [playing] was not set, or a played-stream
    event was handled during the await, no clear-audio command is sent.  In
    every case [playing] is not set in the world in which the playback of the
    new reply starts. *)
Theorem clear_audio_before_the_new_reply cfg (w : world)
    (generation : awaited string) (clear : awaited unit) (script : playback)
    (checkpoint : awaited unit) (message : dg_message) (reply : string) :
  is_turn_info message "EndOfTurn" = true →
  answer generation = Returned reply →
  let still_playing :=
    playing w && negb (existsb is_stream_played (during generation)) in
  let handler :=
    on_deepgram_message_live cfg generation clear script checkpoint message in
  let prepared :=
    end_of_turn_until_playback_live cfg generation clear message in
  (∃ messages,
     calls (after handler w) =
       calls w ++ chat_completions_create (OPENAI_MODEL cfg) messages
       :: if still_playing
          then send_clear_audio
               :: match answer clear with
                  | Returned _ =>
                      convert_call cfg reply :: playback_calls cfg script
                  | Raised _ => []
                  end
          else convert_call cfg reply :: playback_calls cfg script) ∧
  (send_clear_audio ∉ convert_call cfg reply :: playback_calls cfg script) ∧
  (still_playing = true →
   ∀ e, answer clear = Raised e → result handler w = Raised e) ∧
  (result prepared w = Returned reply → playing (after prepared w) = false) ∧
  handler w =
    (text ← prepared; stream_elevenlabs_audio_live cfg script checkpoint text)
      w.
Proof.
  intros Heot Hreply still_playing handler prepared.
  pose proof (on_deepgram_message_live_playback cfg generation clear script
                checkpoint message w Heot) as Hsplit.
  fold handler prepared in Hsplit.
  destruct (end_of_turn_until_playback_live_run cfg generation clear message
              reply w Hreply) as (w1 & messages & Hrun & Hcalls & Hplaying).
  fold still_playing prepared in Hrun, Hcalls, Hplaying.
  split; [|split; [apply playback_calls_no_clear|split; [|split]]].
  - exists messages. unfold after. rewrite Hsplit.
    unfold mbind, M_bind. rewrite Hrun.
    destruct still_playing; [destruct (answer clear) as [[]|e]|].
    + destruct (stream_elevenlabs_audio_live_run cfg script checkpoint reply
                  w1) as (w2 & -> & Hcalls2).
      simpl. rewrite Hcalls2, Hcalls, <- app_assoc. done.
    + simpl. exact Hcalls.
    + destruct (stream_elevenlabs_audio_live_run cfg script checkpoint reply
                  w1) as (w2 & -> & Hcalls2).
      simpl. rewrite Hcalls2, Hcalls, <- app_assoc. done.
  - intros Hstill e He. unfold result. rewrite Hsplit.
    unfold mbind, M_bind. rewrite Hrun, Hstill, He. reflexivity.
  - unfold result, after. rewrite Hrun. simpl. intros Hres.
    apply Hplaying. rewrite Hrun. exact Hres.
  - exact Hsplit.
Qed.

(** C6, as the code has it.  When the loop over the synthesized audio reaches
    the end of the stream, every [send_media] having returned, the calls of
    the invocation are the synthesis request, one [send_media] per chunk in
    order and then one [send_checkpoint], and the invocation returns or raises
    as that last call does.  When the stream raises, or a [send_media] raises,
    the exception leaves the invocation, the chunks sent are those yielded up
    to there and no [send_checkpoint] call is made. *)
Theorem checkpoint_once_after_final_chunk cfg (w : world) (script : playback)
    (checkpoint : awaited unit) (text : string) :
  let invocation := stream_elevenlabs_audio_live cfg script checkpoint text in
  ∃ new,
    calls (after invocation w) = calls w ++ new ∧
    match stop_of script with
    | stream_ended =>
        new = convert_call cfg text :: media_calls_of cfg (sent_chunks script)
                ++ [send_checkpoint "all_audio_played"] ∧
        length (List.filter is_send_checkpoint new) = 1 ∧
        result invocation w = answer checkpoint
    | send_raised e | synthesis_raised e =>
        new = convert_call cfg text :: media_calls_of cfg (sent_chunks script) ∧
        List.filter is_send_checkpoint new = [] ∧
        result invocation w = Raised e
    end.
Proof.
  intros invocation. subst invocation. unfold after, result.
  destruct (stream_elevenlabs_audio_live_run cfg script checkpoint text w)
    as (w' & -> & Hcalls).
  eexists. split; [exact Hcalls|].
  unfold playback_calls, playback_result. simpl.
  destruct (stop_of script) as [|e|e]; simpl.
  - repeat split.
    rewrite List.filter_app, media_calls_of_no_checkpoint. reflexivity.
  - rewrite app_nil_r. repeat split. apply media_calls_of_no_checkpoint.
  - rewrite app_nil_r. repeat split. apply media_calls_of_no_checkpoint.
Qed.

Lemma clear_audio_before_the_new_reply_witness :
  is_turn_info (end_of_turn "and you?") "EndOfTurn" = true ∧
  answer (Awaited [stream_start (Start "B" "call-2")] (Returned "Fine."))
    = Returned "Fine." ∧
  ∃ messages,
    calls (after (on_deepgram_message_live demo_config
                    (Awaited [stream_start (Start "B" "call-2")]
                       (Returned "Fine."))
                    (undisturbed (Returned tt))
                    (playback_chunk [] [x03] (undisturbed (Returned tt)) []
                       (playback_end []))
                    (undisturbed (Returned tt)) (end_of_turn "and you?"))
             after_one_reply)
      = calls after_one_reply
        ++ [chat_completions_create "gpt-4o-mini" messages;
            send_clear_audio;
            convert_call demo_config "Fine.";
            send_media [x03] "audio/x-l16" 16000;
            send_checkpoint "all_audio_played"].
Proof.
  split; [reflexivity|]. split; [reflexivity|].
  exact (proj1 (clear_audio_before_the_new_reply demo_config after_one_reply
                  (Awaited [stream_start (Start "B" "call-2")]
                     (Returned "Fine."))
                  (undisturbed (Returned tt))
                  (playback_chunk [] [x03] (undisturbed (Returned tt)) []
                     (playback_end []))
                  (undisturbed (Returned tt)) (end_of_turn "and you?")
                  "Fine." eq_refl eq_refl)).
Defined.

(** C2: the message arrives while [playing] is set, a played-stream event is
    handled while the generation is awaited, and the chunk of the new reply
    is sent with no clear-audio command before it. *)
Lemma played_stream_during_generation_skips_clear_audio :
  let handler :=
    on_deepgram_message_live demo_config
      (Awaited [stream_played] (Returned "Fine."))
      (undisturbed (Returned tt))
      (playback_chunk [] [x03] (undisturbed (Returned tt)) []
         (playback_end []))
      (undisturbed (Returned tt)) (end_of_turn "and you?") in
  playing after_one_reply = true ∧
  result handler after_one_reply = Returned tt ∧
  drop (length (calls after_one_reply)) (calls (after handler after_one_reply))
    = [chat_completions_create "gpt-4o-mini"
         [Message "system" "You are a helpful assistant.";
          user_turn "hi"; assistant_turn "Hello!"; user_turn "and you?"];
       convert_call demo_config "Fine.";
       send_media [x03] "audio/x-l16" 16000;
       send_checkpoint "all_audio_played"].
Proof. vm_compute. repeat split. Qed.

(** C6: the stream yields its one chunk and ends, and the [send_checkpoint]
    call raises: the invocation raises and no checkpoint has been emitted. *)
Lemma checkpoint_call_can_raise :
  let script :=
    playback_chunk [] [x01] (undisturbed (Returned tt)) [] (playback_end []) in
  let invocation :=
    stream_elevenlabs_audio_live demo_config script
      (undisturbed (Raised "ValueError")) "Hello!" in
  stop_of script = stream_ended ∧
  sent_chunks script = [[x01]] ∧
  calls (after invocation initial_world) =
    [convert_call demo_config "Hello!";
     send_media [x01] "audio/x-l16" 16000;
     send_checkpoint "all_audio_played"] ∧
  result invocation initial_world = Raised "ValueError".
Proof. vm_compute. repeat split. Qed.
